(** * smalllang: the AST storage engine of [ast.hpp]

    A shallow embedding of [OrderedDict], [AstNode] and [Ast] from
    [src/ast.hpp], and the properties of the specification that concern them.

    - 32-bit handles ([AstNodeIndex], [IdIndex]) are numbers of [N]; the one
      place where the code narrows a wider number to 32 bits
      ([Ast::create]'s [return nodes.size() - 1]) is written with [to_u32].
    - [std::unordered_map] is a [gmap], [std::vector] and [std::deque] are
      lists whose last element is the container's back.
    - raw pointers are addresses of [N] with [0] for [nullptr]; [new] and
      [delete] act on an explicit [Heap].
    - undefined behaviour (an index outside the deque, [delete] of a pointer
      that is not allocated) is the error of the monad [M]. *)

From stdpp Require Import base option list gmap.
From Stdlib Require Import NArith Lia.

Open Scope N_scope.

(** ** Handles *)

(** [using AstNodeIndex = std::uint32_t;] *)
Definition AstNodeIndex : Type := N.

(** [std::numeric_limits<AstNodeIndex>::max()] *)
Definition UndefinedAstNodeIndex : AstNodeIndex := 4294967295.

(** Conversion of a [size_t] to [std::uint32_t]. *)
Definition to_u32 (n : N) : AstNodeIndex := n mod 4294967296.

(** Modelled from the spec: [id_cache.hpp] is not among the sources; the
    specification calls an identifier handle "an opaque integer". *)
Definition IdIndex : Type := N.

(** ** OrderedDict *)

Module OrderedDict.

Record t : Type := mk {
  m_map : gmap N AstNodeIndex;
  m_nodes : list AstNodeIndex
}.

(** [OrderedDict() = default;] *)
Definition empty : t := {| m_map := ∅; m_nodes := [] |}.

(** [void append(IdIndex name, AstNodeIndex node_index)] *)
Definition append_named (name : IdIndex) (node_index : AstNodeIndex) (d : t) : t :=
  match m_map d !! name with
  | None =>
      {| m_map := <[name := node_index]> (m_map d);
         m_nodes := m_nodes d ++ [node_index] |}
  | Some _ => d
  end.

(** [void append(AstNodeIndex node_index)] *)
Definition append (node_index : AstNodeIndex) (d : t) : t :=
  {| m_map := m_map d; m_nodes := m_nodes d ++ [node_index] |}.

(** [AstNodeIndex find(IdIndex name) const] *)
Definition find (name : IdIndex) (d : t) : AstNodeIndex :=
  match m_map d !! name with
  | None => UndefinedAstNodeIndex
  | Some second => second
  end.

(** [const std::vector<AstNodeIndex>& get_nodes() const] *)
Definition get_nodes (d : t) : list AstNodeIndex := m_nodes d.

(** A call on a dictionary, and a sequence of calls in program order. *)
Inductive call : Type :=
| Named (name : IdIndex) (node_index : AstNodeIndex)
| Unnamed (node_index : AstNodeIndex).

Definition do_call (d : t) (c : call) : t :=
  match c with
  | Named name node_index => append_named name node_index d
  | Unnamed node_index => append node_index d
  end.

Definition run_from (d : t) (cs : list call) : t := foldl do_call d cs.

Definition run (cs : list call) : t := run_from empty cs.

(** The node of the earliest named append under [name] in [cs]. *)
Fixpoint earliest (name : IdIndex) (cs : list call) : option AstNodeIndex :=
  match cs with
  | [] => None
  | Named name' node_index :: cs' =>
      if decide (name' = name) then Some node_index else earliest name cs'
  | Unnamed _ :: cs' => earliest name cs'
  end.

End OrderedDict.

(** ** AstNode::Kind and the classification predicates *)

Module Kind.

(** [enum class Kind]; [Type] is a reserved word and is written [Type_]. *)
Inductive t : Set :=
| None | Type_ | Value
| I8Type | I16Type | I32Type | U8Type | U16Type | U32Type | F32Type | F64Type
| StructType | UnionType
| FunType | FunTypeWithNamedParams | LocalVariable | GlobalVariable | StringLiteral
| I8Literal | I16Literal | I32Literal | U8Literal | U16Literal | U32Literal
| F32Literal | F64Literal
| AssignExpr | EqualExpr | GreatExpr | GreatOrEqualExpr | LessExpr | LessOrEqualExpr
| ParenthExpr | NegExpr
| StructField | UnionField
| Function | Struct | Union | BlockScope
| VariableDeclStmt | BlockStmt | FunctionDeclStmt | StructDeclStmt | UnionDeclStmt
| IfElseStmt | WhileStmt.

Definition all : list t :=
  [ None; Type_; Value;
    I8Type; I16Type; I32Type; U8Type; U16Type; U32Type; F32Type; F64Type;
    StructType; UnionType;
    FunType; FunTypeWithNamedParams; LocalVariable; GlobalVariable; StringLiteral;
    I8Literal; I16Literal; I32Literal; U8Literal; U16Literal; U32Literal;
    F32Literal; F64Literal;
    AssignExpr; EqualExpr; GreatExpr; GreatOrEqualExpr; LessExpr; LessOrEqualExpr;
    ParenthExpr; NegExpr;
    StructField; UnionField;
    Function; Struct; Union; BlockScope;
    VariableDeclStmt; BlockStmt; FunctionDeclStmt; StructDeclStmt; UnionDeclStmt;
    IfElseStmt; WhileStmt ].

End Kind.

#[global] Instance Kind_eq_dec : EqDecision Kind.t.
Proof. solve_decision. Defined.

(** [static bool is_stmt(AstNode::Kind kind)] *)
Definition is_stmt (kind : Kind.t) : bool :=
  match kind with
  | Kind.VariableDeclStmt
  | Kind.BlockStmt
  | Kind.FunctionDeclStmt
  | Kind.StructDeclStmt
  | Kind.UnionDeclStmt
  | Kind.IfElseStmt
  | Kind.WhileStmt => true
  | _ => false
  end.

(** [static bool is_expr(AstNode::Kind kind)] *)
Definition is_expr (kind : Kind.t) : bool :=
  match kind with
  | Kind.AssignExpr
  | Kind.EqualExpr
  | Kind.GreatExpr
  | Kind.GreatOrEqualExpr
  | Kind.LessExpr
  | Kind.LessOrEqualExpr => true
  | _ => false
  end.

(** [static bool is_scope(AstNode::Kind kind)] *)
Definition is_scope (kind : Kind.t) : bool :=
  match kind with
  | Kind.Function
  | Kind.Struct
  | Kind.Union => true
  | _ => false
  end.

(** [static bool is_type(AstNode::Kind kind)] *)
Definition is_type (kind : Kind.t) : bool :=
  match kind with
  | Kind.I8Type
  | Kind.I16Type
  | Kind.I32Type
  | Kind.U8Type
  | Kind.U16Type
  | Kind.U32Type
  | Kind.F32Type
  | Kind.F64Type
  | Kind.StructType
  | Kind.UnionType
  | Kind.FunType => true
  | _ => false
  end.

(** [static bool is_value(AstNode::Kind kind)] *)
Definition is_value (kind : Kind.t) : bool :=
  match kind with
  | Kind.LocalVariable
  | Kind.GlobalVariable
  | Kind.StringLiteral
  | Kind.I8Literal
  | Kind.I16Literal
  | Kind.I32Literal
  | Kind.U8Literal
  | Kind.U16Literal
  | Kind.U32Literal
  | Kind.F32Literal
  | Kind.F64Literal
  | Kind.StructField
  | Kind.UnionField => true
  | _ => false
  end.

(** ** The heap of [new] and [delete] *)

(** A raw pointer; [0] is [nullptr]. *)
Definition ptr : Type := N.
Definition nullptr : ptr := 0.

(** What a node's pointer can own. *)
Inductive HeapObj : Type :=
| Vector (elems : list N)              (* std::vector<AstNodeIndex>, std::vector<IdIndex> *)
| Dict (d : OrderedDict.t).            (* OrderedDict *)

Abbreviation Heap := (gmap N HeapObj).

(** The address a [new] expression returns: not null and not allocated. *)
Definition new_addr (h : Heap) : ptr := fresh ({[nullptr]} ∪ dom h).

(** [new T] *)
Definition new (o : HeapObj) (h : Heap) : ptr * Heap :=
  (new_addr h, <[new_addr h := o]> h).

(** [delete p] for [p] of type [std::vector<...>*]: nothing for [nullptr];
    undefined when [p] is not an allocated vector. *)
Definition delete_vector (p : ptr) (h : Heap) : option Heap :=
  if decide (p = nullptr) then Some h
  else match h !! p with
       | Some (Vector _) => Some (delete p h)
       | _ => None
       end.

(** [delete p] for [p] of type [OrderedDict*]. *)
Definition delete_dict (p : ptr) (h : Heap) : option Heap :=
  if decide (p = nullptr) then Some h
  else match h !! p with
       | Some (Dict _) => Some (delete p h)
       | _ => None
       end.

(** ** AstNode::Node, the payload union

    The members of [union Node] that have one struct type, or that start
    with the same struct, are one field here: that much sharing the code
    itself relies on ([clean] reads [node.fun_type] of a
    [FunTypeWithNamedParams] node and [node.scope] of a [Function] node).
    Members of unrelated shape are separate fields; the code reaches them
    through the kind tag only. [memset] to zero is the value [Node.zero]. *)

Module Value.
Record t : Type := mk { type : AstNodeIndex }.
Definition zero : t := {| type := 0 |}.
End Value.

Module UnaryExpr.
Record t : Type := mk { expr : AstNodeIndex }.
Definition zero : t := {| expr := 0 |}.
End UnaryExpr.

Module BinaryExpr.
Record t : Type := mk { left : AstNodeIndex; right : AstNodeIndex }.
Definition zero : t := {| left := 0; right := 0 |}.
End BinaryExpr.

Module FunType.
Record t : Type := mk {
  return_type : AstNodeIndex;
  param_types : ptr;
  name : IdIndex
}.
Definition zero : t := {| return_type := 0; param_types := nullptr; name := 0 |}.

(** [void add_param_type(AstNodeIndex type)] *)
Definition add_param_type (type : AstNodeIndex) (ft : t) (h : Heap) : option (t * Heap) :=
  let '(p, h1) :=
    if decide (param_types ft = nullptr) then new (Vector []) h
    else (param_types ft, h) in
  match h1 !! p with
  | Some (Vector v) =>
      Some ({| return_type := return_type ft; param_types := p; name := name ft |},
            <[p := Vector (v ++ [type])]> h1)
  | _ => None
  end.
End FunType.

Module Scope.
Record t : Type := mk {
  outer_scope : AstNodeIndex;
  name : IdIndex;
  dict : ptr
}.
Definition zero : t := {| outer_scope := 0; name := 0; dict := nullptr |}.

(** [void add_node(AstNodeIndex node_idx, IdIndex name = UndefinedIdIndex)];
    the constant [UndefinedIdIndex] of [id_cache.hpp] is a parameter. *)
Definition add_node (UndefinedIdIndex : IdIndex)
    (node_idx : AstNodeIndex) (name' : IdIndex) (sc : t) (h : Heap) : option (t * Heap) :=
  let '(p, h1) :=
    if decide (dict sc = nullptr) then new (Dict OrderedDict.empty) h
    else (dict sc, h) in
  match h1 !! p with
  | Some (Dict d) =>
      let d' :=
        if decide (name' ≠ UndefinedIdIndex)
        then OrderedDict.append_named name' node_idx d
        else OrderedDict.append node_idx d in
      Some ({| outer_scope := outer_scope sc; name := name sc; dict := p |},
            <[p := Dict d']> h1)
  | _ => None
  end.
End Scope.

Module VariableDeclStmt.
Record t : Type := mk { variable : AstNodeIndex; init_expr : AstNodeIndex }.
Definition zero : t := {| variable := 0; init_expr := 0 |}.
End VariableDeclStmt.

Module BlockStmt.
Record t : Type := mk { block_scope : AstNodeIndex; stmts : ptr }.
Definition zero : t := {| block_scope := 0; stmts := nullptr |}.

(** [void add_stmt(AstNodeIndex node_idx)] *)
Definition add_stmt (node_idx : AstNodeIndex) (b : t) (h : Heap) : option (t * Heap) :=
  let '(p, h1) :=
    if decide (stmts b = nullptr) then new (Vector []) h
    else (stmts b, h) in
  match h1 !! p with
  | Some (Vector v) =>
      Some ({| block_scope := block_scope b; stmts := p |},
            <[p := Vector (v ++ [node_idx])]> h1)
  | _ => None
  end.
End BlockStmt.

Module IfElseStmt.
Record t : Type := mk {
  expr : AstNodeIndex; stmt : AstNodeIndex; else_stmt : AstNodeIndex
}.
Definition zero : t := {| expr := 0; stmt := 0; else_stmt := 0 |}.
End IfElseStmt.

Module WhileStmt.
Record t : Type := mk { expr : AstNodeIndex; stmt : AstNodeIndex }.
Definition zero : t := {| expr := 0; stmt := 0 |}.
End WhileStmt.

Module Node.
Record t : Type := mk {
  (* [value], and the [value] that starts [global_variable],
     [local_variable], [string_literal], the number literals, [struct_field] *)
  value : Value.t;
  (* [global_variable.name], [local_variable.name], [struct_field.name],
     [string_literal.string] *)
  name : IdIndex;
  (* [literal_value] of [i8_literal] ... [u32_literal] *)
  literal_value : Z;
  (* [struct_field.offset] *)
  offset : N;
  (* [parenth_expr], [neg_expr] *)
  unary_expr : UnaryExpr.t;
  (* [assign_expr] ... [less_or_equal_expr] *)
  binary_expr : BinaryExpr.t;
  (* [fun_type], and [fun_type_with_named_params.fun_type] *)
  fun_type : FunType.t;
  (* [fun_type_with_named_params.names] *)
  names : ptr;
  (* [struct_type.struct_scope] *)
  struct_scope : AstNodeIndex;
  (* [scope], and the [scope] that starts [block_scope], [function],
     [struc], [unio] *)
  scope : Scope.t;
  (* [block_scope.block_stmt] *)
  block_scope_block_stmt : AstNodeIndex;
  (* [function.function_type_with_named_params] *)
  function_type_with_named_params : AstNodeIndex;
  variable_decl_stmt : VariableDeclStmt.t;
  block_stmt : BlockStmt.t;
  if_else_stmt : IfElseStmt.t;
  while_stmt : WhileStmt.t
}.

(** The payload after [memset((void* )this, 0, sizeof(AstNode))]. *)
Definition zero : t :=
  {| value := Value.zero; name := 0; literal_value := 0%Z; offset := 0;
     unary_expr := UnaryExpr.zero; binary_expr := BinaryExpr.zero;
     fun_type := FunType.zero; names := nullptr; struct_scope := 0;
     scope := Scope.zero; block_scope_block_stmt := 0;
     function_type_with_named_params := 0;
     variable_decl_stmt := VariableDeclStmt.zero;
     block_stmt := BlockStmt.zero;
     if_else_stmt := IfElseStmt.zero; while_stmt := WhileStmt.zero |}.

Definition set_fun_type (ft : FunType.t) (n : t) : t :=
  mk (value n) (name n) (literal_value n) (offset n) (unary_expr n)
     (binary_expr n) ft (names n) (struct_scope n) (scope n)
     (block_scope_block_stmt n) (function_type_with_named_params n)
     (variable_decl_stmt n) (block_stmt n) (if_else_stmt n) (while_stmt n).

Definition set_names (p : ptr) (n : t) : t :=
  mk (value n) (name n) (literal_value n) (offset n) (unary_expr n)
     (binary_expr n) (fun_type n) p (struct_scope n) (scope n)
     (block_scope_block_stmt n) (function_type_with_named_params n)
     (variable_decl_stmt n) (block_stmt n) (if_else_stmt n) (while_stmt n).

Definition set_scope (sc : Scope.t) (n : t) : t :=
  mk (value n) (name n) (literal_value n) (offset n) (unary_expr n)
     (binary_expr n) (fun_type n) (names n) (struct_scope n) sc
     (block_scope_block_stmt n) (function_type_with_named_params n)
     (variable_decl_stmt n) (block_stmt n) (if_else_stmt n) (while_stmt n).

Definition set_block_stmt (b : BlockStmt.t) (n : t) : t :=
  mk (value n) (name n) (literal_value n) (offset n) (unary_expr n)
     (binary_expr n) (fun_type n) (names n) (struct_scope n) (scope n)
     (block_scope_block_stmt n) (function_type_with_named_params n)
     (variable_decl_stmt n) b (if_else_stmt n) (while_stmt n).

(** [void add_name(IdIndex id)] of [FunTypeWithNamedParams] *)
Definition add_name (id : IdIndex) (n : t) (h : Heap) : option (t * Heap) :=
  let '(p, h1) :=
    if decide (names n = nullptr) then new (Vector []) h
    else (names n, h) in
  match h1 !! p with
  | Some (Vector v) => Some (set_names p n, <[p := Vector (v ++ [id])]> h1)
  | _ => None
  end.
End Node.

(** ** AstNode *)

Module AstNode.
Record t : Type := mk { kind : Kind.t; node : Node.t }.

(** [AstNode(Kind kind)]: [memset] to zero, then [this->kind = kind]. *)
Definition ctor (kind : Kind.t) : t := {| kind := kind; node := Node.zero |}.

Definition set_kind (kind : Kind.t) (n : t) : t := {| kind := kind; node := node n |}.
Definition set_node (node : Node.t) (n : t) : t := {| kind := kind n; node := node |}.

(** [void clean()]: the [switch] with its fall through from
    [FunTypeWithNamedParams] into [FunType], then [memset] to zero and
    [kind = AstNode::Kind::None]. *)
Definition clean (n : t) (h : Heap) : option (t * Heap) :=
  h' ← match kind n with
       | Kind.FunTypeWithNamedParams =>
           h1 ← delete_vector (Node.names (node n)) h;
           delete_vector (FunType.param_types (Node.fun_type (node n))) h1
       | Kind.FunType =>
           delete_vector (FunType.param_types (Node.fun_type (node n))) h
       | Kind.Function
       | Kind.Struct
       | Kind.Union =>
           delete_dict (Scope.dict (Node.scope (node n))) h
       | Kind.BlockStmt =>
           delete_vector (BlockStmt.stmts (Node.block_stmt (node n))) h
       | _ => Some h
       end;
  Some ({| kind := Kind.None; node := Node.zero |}, h').
End AstNode.

(** ** Ast, the arena *)

Record Ast : Type := mkAst {
  nodes : list AstNode.t;               (* std::deque<AstNode> nodes *)
  removed : list AstNodeIndex           (* std::deque<AstNodeIndex> removed *)
}.

(** The arena together with the heap its nodes point into. *)
Record State : Type := mkState { ast : Ast; heap : Heap }.

(** A computation on the state that may be undefined. *)
Definition M (A : Type) : Type := State → option (A * State).

Definition init : State := {| ast := {| nodes := []; removed := [] |}; heap := ∅ |}.

(** [AstNode& get_node(AstNodeIndex index)], read. *)
Definition get_node (index : AstNodeIndex) (s : State) : option AstNode.t :=
  nodes (ast s) !! N.to_nat index.

(** [AstNodeIndex create(AstNode::Kind kind)] *)
Definition create (kind : Kind.t) : M AstNodeIndex := λ s,
  match last (removed (ast s)) with
  | None =>                                       (* removed.empty() *)
      let nodes' := nodes (ast s) ++ [AstNode.ctor kind] in
      Some (to_u32 (N.of_nat (length nodes') - 1),
            {| ast := {| nodes := nodes'; removed := removed (ast s) |};
               heap := heap s |})
  | Some index =>                                 (* removed.back() *)
      n ← nodes (ast s) !! N.to_nat index;
      Some (index,
            {| ast := {| nodes := <[N.to_nat index := AstNode.set_kind kind n]> (nodes (ast s));
                         removed := removelast (removed (ast s)) |};
               heap := heap s |})
  end.

(** [void remove(AstNodeIndex index)] *)
Definition remove (index : AstNodeIndex) : M unit := λ s,
  n ← nodes (ast s) !! N.to_nat index;
  '(n', h') ← AstNode.clean n (heap s);
  Some (tt,
        {| ast := {| nodes := <[N.to_nat index := n']> (nodes (ast s));
                     removed := removed (ast s) ++ [index] |};
           heap := h' |}).

(** ** Client programs

    What a client does with an arena: the two methods of [Ast], and writes
    through the reference [get_node] returns, either plain assignments or
    the [add_*] helpers of the union members. *)

Inductive Op : Type :=
| Create (kind : Kind.t)                              (* ast.create(kind) *)
| Remove (index : AstNodeIndex)                       (* ast.remove(index) *)
| SetKind (index : AstNodeIndex) (kind : Kind.t)      (* ast.get_node(index).kind = kind *)
| SetNode (index : AstNodeIndex) (node : Node.t)      (* ast.get_node(index).node = node *)
| AddParamType (index : AstNodeIndex) (type : AstNodeIndex)
| AddName (index : AstNodeIndex) (id : IdIndex)
| AddNode (index : AstNodeIndex) (node_idx : AstNodeIndex) (name : IdIndex)
| AddStmt (index : AstNodeIndex) (node_idx : AstNodeIndex).

(** Replace the node at [index], which must exist. *)
Definition put_node (index : AstNodeIndex) (n : AstNode.t) (h : Heap) (s : State) : State :=
  {| ast := {| nodes := <[N.to_nat index := n]> (nodes (ast s));
               removed := removed (ast s) |};
     heap := h |}.

Section Exec.

(** The constant of [id_cache.hpp] that [Scope::add_node] compares with. *)
Variable UndefinedIdIndex : IdIndex.

Definition exec (op : Op) (s : State) : option State :=
  match op with
  | Create kind => snd <$> create kind s
  | Remove index => snd <$> remove index s
  | SetKind index kind =>
      n ← get_node index s;
      Some (put_node index (AstNode.set_kind kind n) (heap s) s)
  | SetNode index node =>
      n ← get_node index s;
      Some (put_node index (AstNode.set_node node n) (heap s) s)
  | AddParamType index type =>
      n ← get_node index s;
      '(ft, h) ← FunType.add_param_type type (Node.fun_type (AstNode.node n)) (heap s);
      Some (put_node index (AstNode.set_node (Node.set_fun_type ft (AstNode.node n)) n) h s)
  | AddName index id =>
      n ← get_node index s;
      '(nd, h) ← Node.add_name id (AstNode.node n) (heap s);
      Some (put_node index (AstNode.set_node nd n) h s)
  | AddNode index node_idx name =>
      n ← get_node index s;
      '(sc, h) ← Scope.add_node UndefinedIdIndex node_idx name
                   (Node.scope (AstNode.node n)) (heap s);
      Some (put_node index (AstNode.set_node (Node.set_scope sc (AstNode.node n)) n) h s)
  | AddStmt index node_idx =>
      n ← get_node index s;
      '(b, h) ← BlockStmt.add_stmt node_idx (Node.block_stmt (AstNode.node n)) (heap s);
      Some (put_node index (AstNode.set_node (Node.set_block_stmt b (AstNode.node n)) n) h s)
  end.

(** Run a program from state [s]. *)
Fixpoint run (ops : list Op) (s : State) : option State :=
  match ops with
  | [] => Some s
  | op :: ops' => s' ← exec op s; run ops' s'
  end.

(** A handle is live when it addresses a slot that is not on the free
    list. *)
Definition live (index : AstNodeIndex) (s : State) : bool :=
  bool_decide (N.to_nat index < length (nodes (ast s)))%nat
  && bool_decide (index ∉ removed (ast s)).

(** The caller's side of the contract of the arena (specification, 4.2 and
    7): a node is written and removed through a live handle only. *)
Definition allowed (op : Op) (s : State) : bool :=
  match op with
  | Create _ => true
  | Remove index
  | SetKind index _
  | SetNode index _
  | AddParamType index _
  | AddName index _
  | AddNode index _ _
  | AddStmt index _ => live index s
  end.

Fixpoint disciplined (ops : list Op) (s : State) : bool :=
  match ops with
  | [] => true
  | op :: ops' =>
      allowed op s &&
      match exec op s with
      | Some s' => disciplined ops' s'
      | None => false
      end
  end.

End Exec.

(** ** Notions the statements use *)

(** The classes a kind belongs to, among the four of the specification. *)
Definition classes (k : Kind.t) : list bool :=
  [is_type k; is_value k; is_stmt k; is_scope k].

(** The slot a plain write or an [add_*] helper works on. *)
Definition written (op : Op) : option AstNodeIndex :=
  match op with
  | Create _ | Remove _ => None
  | SetKind index _ | SetNode index _ | AddParamType index _
  | AddName index _ | AddNode index _ _ | AddStmt index _ => Some index
  end.

(** The free list has no handle twice, and every slot on it is as
    [clean] left it. *)
Definition free_slots_clean (s : State) : Prop :=
  NoDup (removed (ast s)) ∧
  ∀ i, i ∈ removed (ast s) →
       nodes (ast s) !! N.to_nat i = Some (AstNode.ctor Kind.None).

(** A client that builds a function type with two parameter types and
    removes it again. *)
Definition build_and_remove : list Op :=
  [Create Kind.I32Type; Create Kind.FunType;
   AddParamType 1 0; AddParamType 1 0; Remove 1].

(** A scope that lives in a [BlockScope] node and gets one member, then
    the removal of the node. *)
Definition block_scope_program (UndefinedIdIndex : IdIndex) : list Op :=
  [Create Kind.BlockScope; AddNode 0 5 UndefinedIdIndex; Remove 0].

(** The same with a [Function] node. *)
Definition function_scope_program (UndefinedIdIndex : IdIndex) : list Op :=
  [Create Kind.Function; AddNode 0 5 UndefinedIdIndex; Remove 0].

(** ** Further notions *)

(** The node handle a call passes. *)
Definition call_node (c : OrderedDict.call) : AstNodeIndex :=
  match c with
  | OrderedDict.Named _ node_index => node_index
  | OrderedDict.Unnamed node_index => node_index
  end.

(** The names of the named appends of a call sequence, in order. *)
Fixpoint call_names (cs : list OrderedDict.call) : list IdIndex :=
  match cs with
  | [] => []
  | OrderedDict.Named name _ :: cs' => name :: call_names cs'
  | OrderedDict.Unnamed _ :: cs' => call_names cs'
  end.

(** How many of the calls are unnamed appends. *)
Fixpoint unnamed_count (cs : list OrderedDict.call) : nat :=
  match cs with
  | [] => 0%nat
  | OrderedDict.Named _ _ :: cs' => unnamed_count cs'
  | OrderedDict.Unnamed _ :: cs' => S (unnamed_count cs')
  end.

(** The kinds none of the five predicates accepts. *)
Definition unclassified : list Kind.t :=
  [Kind.None; Kind.Type_; Kind.Value; Kind.FunTypeWithNamedParams;
   Kind.ParenthExpr; Kind.NegExpr; Kind.BlockScope].

(** Repeated use of one of the [add_*] helpers, first element first. *)
Fixpoint fold_add {A B : Type} (f : B → A → Heap → option (A * Heap))
    (bs : list B) (a : A) (h : Heap) : option (A * Heap) :=
  match bs with
  | [] => Some (a, h)
  | b :: bs' => '(a', h') ← f b a h; fold_add f bs' a' h'
  end.

(** The call on the dictionary that [Scope::add_node] makes for a member
    given as (node, name). *)
Definition member_call (UndefinedIdIndex : IdIndex)
    (m : AstNodeIndex * IdIndex) : OrderedDict.call :=
  if decide (m.2 ≠ UndefinedIdIndex)
  then OrderedDict.Named m.2 m.1
  else OrderedDict.Unnamed m.1.

(** [add_node] on a member given as a pair. *)
Definition add_member (UndefinedIdIndex : IdIndex)
    (m : AstNodeIndex * IdIndex) (sc : Scope.t) (h : Heap) : option (Scope.t * Heap) :=
  Scope.add_node UndefinedIdIndex m.1 m.2 sc h.

(** One named parameter of a function type, as a parser adds it:
    [add_param_type] on the [fun_type] member, then [add_name]. *)
Definition add_named_param (param : AstNodeIndex * IdIndex)
    (nd : Node.t) (h : Heap) : option (Node.t * Heap) :=
  '(ft, h1) ← FunType.add_param_type param.1 (Node.fun_type nd) h;
  Node.add_name param.2 (Node.set_fun_type ft nd) h1.

(** The shape the [add_*] helpers share: allocate [init] when the pointer
    is null, then update the object the pointer addresses by [step]. *)
Definition update_owned (init : HeapObj) (step : HeapObj → option HeapObj)
    (p : ptr) (h : Heap) : option (ptr * Heap) :=
  let '(p', h1) := if decide (p = nullptr) then new init h else (p, h) in
  o ← h1 !! p'; o' ← step o; Some (p', <[p' := o']> h1).

(** [emplace_back] on a heap object that is a vector. *)
Definition push_back (x : N) (o : HeapObj) : option HeapObj :=
  match o with
  | Vector v => Some (Vector (v ++ [x]))
  | Dict _ => None
  end.

(** A call on a heap object that is a dictionary. *)
Definition dict_call (c : OrderedDict.call) (o : HeapObj) : option HeapObj :=
  match o with
  | Dict d => Some (Dict (OrderedDict.do_call d c))
  | Vector _ => None
  end.

(** Updates of one object in sequence. *)
Fixpoint fold_steps {B : Type} (step : B → HeapObj → option HeapObj)
    (bs : list B) (o : HeapObj) : option HeapObj :=
  match bs with
  | [] => Some o
  | b :: bs' => o' ← step b o; fold_steps step bs' o'
  end.

(** How many [create] and how many [remove] calls a program makes. *)
Fixpoint creates (ops : list Op) : nat :=
  match ops with
  | [] => 0%nat
  | Create _ :: ops' => S (creates ops')
  | _ :: ops' => creates ops'
  end.

Fixpoint removes (ops : list Op) : nat :=
  match ops with
  | [] => 0%nat
  | Remove _ :: ops' => S (removes ops')
  | _ :: ops' => removes ops'
  end.

(** * Properties *)

(** ** OrderedDict *)

Module OrderedDictFacts.
Import OrderedDict.

Lemma run_from_snoc d cs c : run_from d (cs ++ [c]) = do_call (run_from d cs) c.
Proof. unfold run_from. by rewrite foldl_app. Qed.

Lemma run_snoc cs c : run (cs ++ [c]) = do_call (run cs) c.
Proof. apply run_from_snoc. Qed.

Lemma earliest_app name cs cs' :
  earliest name (cs ++ cs') =
  match earliest name cs with
  | Some v => Some v
  | None => earliest name cs'
  end.
Proof.
  induction cs as [|[name' v|v] cs IH]; simpl; [done| |done].
  by case_decide.
Qed.

(** The lookup mapping holds, for each name, the node of the earliest
    named append. *)
Lemma m_map_run cs name : m_map (run cs) !! name = earliest name cs.
Proof.
  induction cs as [|c cs IH] using rev_ind; [done|].
  rewrite run_snoc, earliest_app, <- IH.
  destruct c as [name' v|v]; simpl; unfold append_named.
  - destruct (decide (name' = name)) as [->|Hne].
    + destruct (m_map (run cs) !! name) eqn:E; [by rewrite E|].
      simpl. by rewrite lookup_insert_eq.
    + destruct (m_map (run cs) !! name') eqn:E; simpl.
      * by destruct (m_map (run cs) !! name).
      * rewrite lookup_insert_ne by done. by destruct (m_map (run cs) !! name).
  - by destruct (m_map (run cs) !! name).
Qed.

Lemma earliest_None name cs :
  earliest name cs = None ↔ ∀ v, Named name v ∉ cs.
Proof.
  induction cs as [|[name' v'|v'] cs IH]; simpl.
  - split; [intros _ v Hin; by apply elem_of_nil in Hin|done].
  - case_decide as Hn; [subst; split; [done|] | rewrite IH; split].
    + intros H. exfalso. apply (H v'). by left.
    + intros H v Hin. apply elem_of_cons in Hin as [Heq|Hin]; [congruence|by eapply H].
    + intros H v Hin. apply (H v). by right.
  - rewrite IH. split.
    + intros H v Hin. apply elem_of_cons in Hin as [Heq|Hin]; [done|by eapply H].
    + intros H v Hin. apply (H v). by right.
Qed.

Lemma earliest_Some_elem name cs v : earliest name cs = Some v → Named name v ∈ cs.
Proof.
  induction cs as [|[name' v'|v'] cs IH]; simpl; [done| |].
  - case_decide; [intros [= ->]; subst; by left|intros; right; auto].
  - intros; right; auto.
Qed.

(** [earliest name cs] is the node of the first named append under
    [name]: no such append comes before it. *)
Lemma earliest_Some name cs v :
  earliest name cs = Some v ↔
  ∃ pre post, cs = pre ++ Named name v :: post ∧ ∀ v', Named name v' ∉ pre.
Proof.
  split.
  - induction cs as [|c cs IH]; simpl; [done|]. intros H.
    assert (Hcons : earliest name cs = Some v → c ≠ Named name v →
              (∀ v', c ≠ Named name v') →
              ∃ pre post, c :: cs = pre ++ Named name v :: post
                          ∧ ∀ v', Named name v' ∉ pre).
    { intros He _ Hc. destruct (IH He) as (pre & post & -> & Hpre).
      exists (c :: pre), post. split; [done|].
      intros v' [Heq|Hin]%elem_of_cons; [by eapply Hc|by eapply Hpre]. }
    destruct c as [name' v0|v0].
    + case_decide as Hn.
      * injection H as ->. subst. exists [], cs. split; [done|].
        intros v'. apply not_elem_of_nil.
      * apply Hcons; [done|congruence|congruence].
    + apply Hcons; [done|congruence|congruence].
  - intros (pre & post & -> & Hpre%earliest_None).
    rewrite earliest_app, Hpre. simpl. by rewrite decide_True.
Qed.

(** [find] after a run, from the earliest named append. *)
Lemma find_run cs name :
  find name (run cs) = default UndefinedAstNodeIndex (earliest name cs).
Proof. unfold find. rewrite m_map_run. by destruct (earliest name cs). Qed.

(** C3. After any sequence of appends on a fresh dictionary, [find name]
    is the node handle of the earliest named append under [name], however
    many later appends used that name. *)
Theorem find_earliest_append
    (pre post : list call) (name : IdIndex) (v : AstNodeIndex) :
  (∀ v', Named name v' ∉ pre) →
  find name (run (pre ++ Named name v :: post)) = v.
Proof.
  intros Hpre%earliest_None.
  rewrite find_run, earliest_app, Hpre. simpl. by rewrite decide_True.
Qed.

Lemma find_earliest_append_witness :
  (∀ v', Named 7 v' ∉ [Named 6 5; Unnamed 9]) ∧
  find 7 (run ([Named 6 5; Unnamed 9]
               ++ Named 7 1 :: [Named 7 2; Named 8 3; Named 7 4])) = 1.
Proof.
  assert (Hpre : ∀ v', Named 7 v' ∉ [Named 6 5; Unnamed 9]).
  { intros v' Hin. apply list_elem_of_In in Hin. simpl in Hin.
    destruct Hin as [H|[H|[]]]; discriminate H. }
  split; [exact Hpre|]. apply find_earliest_append. exact Hpre.
Defined.

(** C1, as the code has it. The first named append under a name records
    the mapping and appends the node to the ordered sequence; every later
    named append under that name changes nothing, neither the mapping nor
    the ordered sequence. Appending [(a, n1)], [(a, n2)], [(b, n3)] with
    [a] and [b] different gives [find a = n1], [find b = n3] and the
    ordered sequence [n1; n3]. *)
Theorem append_named_first_only :
  (∀ cs name node_index,
     (∀ v, Named name v ∉ cs) →
     m_map (run (cs ++ [Named name node_index]))
       = <[name := node_index]> (m_map (run cs)) ∧
     get_nodes (run (cs ++ [Named name node_index]))
       = get_nodes (run cs) ++ [node_index]) ∧
  (∀ cs name node_index v,
     Named name v ∈ cs →
     run (cs ++ [Named name node_index]) = run cs) ∧
  (∀ a b n1 n2 n3,
     a ≠ b →
     let d := run [Named a n1; Named a n2; Named b n3] in
     find a d = n1 ∧ find b d = n3 ∧ get_nodes d = [n1; n3]).
Proof.
  split_and!.
  - intros cs name v H%earliest_None. rewrite run_snoc. simpl.
    unfold append_named. by rewrite m_map_run, H.
  - intros cs name v v' Hin. rewrite run_snoc. simpl. unfold append_named.
    rewrite m_map_run. destruct (earliest name cs) eqn:E; [done|].
    exfalso. by eapply earliest_None.
  - intros a b n1 n2 n3 Hab d. subst d. split_and!.
    + rewrite find_run. simpl. by rewrite decide_True.
    + rewrite find_run. simpl.
      rewrite !(decide_False (P := a = b)) by done. by rewrite decide_True.
    + unfold run, run_from, get_nodes. simpl.
      unfold append_named at 3. simpl. rewrite lookup_empty. simpl.
      unfold append_named at 2. simpl. rewrite lookup_insert_eq.
      unfold append_named. simpl. by rewrite lookup_insert_ne, lookup_empty.
Qed.

Lemma append_named_first_only_witness :
  ((∀ v, Named 0 v ∉ []) ∧
   get_nodes (run ([] ++ [Named 0 10])) = get_nodes (run []) ++ [10]) ∧
  (Named 0 10 ∈ [Named 0 10] ∧
   run ([Named 0 10] ++ [Named 0 11]) = run [Named 0 10]) ∧
  (let d := run [Named 0 10; Named 0 11; Named 1 12] in
   find 0 d = 10 ∧ find 1 d = 12 ∧ get_nodes d = [10; 12]).
Proof.
  destruct append_named_first_only as (Hfirst & Hagain & Hex).
  assert (Hnil : ∀ v, Named 0 v ∉ []) by (intros v; apply not_elem_of_nil).
  assert (Hin : Named 0 10 ∈ [Named 0 10]) by (by left).
  split_and!.
  - exact Hnil.
  - apply (Hfirst [] 0 10 Hnil).
  - exact Hin.
  - apply (Hagain [Named 0 10] 0 11 10 Hin).
  - apply (Hex 0 1 10 11 12). discriminate.
Defined.

(** C1 as the specification states it fails: the second append under
    ["a"] does not reach the ordered sequence. *)
Lemma append_named_again_not_in_order :
  get_nodes (run [Named 0 10; Named 0 11; Named 1 12]) ≠ [10; 11; 12].
Proof. vm_compute. discriminate. Qed.

(** C10. [find name] is the sentinel [UndefinedAstNodeIndex], which is
    [2^32 - 1], exactly when [name] was never passed to the named append,
    up to the one case the sentinel cannot tell apart: the node recorded
    for [name] is itself the handle [2^32 - 1]. When no such handle was
    appended, the sentinel means absence, and absence the sentinel. *)
Theorem find_undefined_iff_absent (cs : list call) (name : IdIndex) :
  UndefinedAstNodeIndex = 2 ^ 32 - 1 ∧
  (find name (run cs) = UndefinedAstNodeIndex
     ↔ (∀ v, Named name v ∉ cs) ∨ earliest name cs = Some UndefinedAstNodeIndex) ∧
  (Named name UndefinedAstNodeIndex ∉ cs →
     (find name (run cs) = UndefinedAstNodeIndex ↔ ∀ v, Named name v ∉ cs)).
Proof.
  split; [reflexivity|].
  assert (Hiff : find name (run cs) = UndefinedAstNodeIndex
     ↔ (∀ v, Named name v ∉ cs) ∨ earliest name cs = Some UndefinedAstNodeIndex).
  { rewrite <- earliest_None. unfold find. rewrite m_map_run.
    destruct (earliest name cs) as [v|]; [|by intuition].
    split; [intros ->; by right|]. by intros [?|[= ->]]. }
  split; [exact Hiff|].
  intros Hnot. rewrite Hiff. split; [|by left].
  intros [?|He]; [done|]. by apply earliest_Some_elem in He.
Qed.

Lemma find_undefined_iff_absent_witness :
  (Named 5 UndefinedAstNodeIndex ∉ [Named 4 1; Unnamed 2]) ∧
  find 5 (run [Named 4 1; Unnamed 2]) = UndefinedAstNodeIndex.
Proof.
  assert (Hn : ∀ v, Named 5 v ∉ [Named 4 1; Unnamed 2]).
  { intros v Hin. apply list_elem_of_In in Hin. simpl in Hin.
    destruct Hin as [H|[H|[]]]; discriminate H. }
  split; [apply Hn|].
  destruct (find_undefined_iff_absent [Named 4 1; Unnamed 2] 5) as (_ & _ & H).
  apply (H (Hn _)). exact Hn.
Defined.

(** The handle [2^32 - 1] recorded under a name reads back as the
    sentinel. *)
Example find_genuine_sentinel :
  find 5 (run [Named 5 UndefinedAstNodeIndex]) = UndefinedAstNodeIndex.
Proof. reflexivity. Qed.

End OrderedDictFacts.

(** ** The classification predicates *)

Module KindFacts.

Lemma all_complete (k : Kind.t) : k ∈ Kind.all.
Proof. apply list_elem_of_In. destruct k; simpl; tauto. Qed.

(** C8. For every kind at most one of [is_type], [is_value], [is_stmt]
    and [is_scope] returns true. *)
Theorem classification_disjoint (k : Kind.t) :
  (length (filter (λ b, b = true) (classes k)) ≤ 1)%nat.
Proof. destruct k; vm_compute; lia. Qed.

(** The same, pair by pair. *)
Lemma classification_pairwise (k : Kind.t) :
  is_type k && is_value k = false ∧ is_type k && is_stmt k = false ∧
  is_type k && is_scope k = false ∧ is_value k && is_stmt k = false ∧
  is_value k && is_scope k = false ∧ is_stmt k && is_scope k = false.
Proof. destruct k; done. Qed.

(** C2. [is_type] has no case for [FunTypeWithNamedParams] and answers
    false for it, where the specification counts the kind among the type
    kinds. *)
Theorem is_type_FunTypeWithNamedParams :
  is_type Kind.FunTypeWithNamedParams = false ∧ is_type Kind.FunType = true.
Proof. done. Qed.

(** It belongs to none of the four classes. *)
Lemma FunTypeWithNamedParams_unclassified :
  classes Kind.FunTypeWithNamedParams = [false; false; false; false].
Proof. done. Qed.

End KindFacts.

(** ** The arena *)

Module AstFacts.

Lemma to_nat_inj_ne (i j : N) : i ≠ j → N.to_nat i ≠ N.to_nat j.
Proof. lia. Qed.

Lemma to_u32_small (n : N) : n < 2 ^ 32 → to_u32 n = n.
Proof. intros H. unfold to_u32. by apply N.mod_small. Qed.

(** *** [create] *)

(** The free list is empty: a fresh slot at the back. *)
Lemma create_fresh kind s :
  removed (ast s) = [] →
  create kind s =
    Some (to_u32 (N.of_nat (length (nodes (ast s)))),
          {| ast := {| nodes := nodes (ast s) ++ [AstNode.ctor kind]; removed := [] |};
             heap := heap s |}).
Proof.
  intros E. unfold create. rewrite E. simpl.
  rewrite length_app. simpl. do 3 f_equal. lia.
Qed.

(** The free list is not empty: its back is popped and only the kind of
    that slot is written. *)
Lemma create_reuse kind s l index n :
  removed (ast s) = l ++ [index] →
  nodes (ast s) !! N.to_nat index = Some n →
  create kind s =
    Some (index,
          {| ast := {| nodes := <[N.to_nat index := AstNode.set_kind kind n]> (nodes (ast s));
                       removed := l |};
             heap := heap s |}).
Proof.
  intros E Hn. unfold create. rewrite E, last_snoc, Hn. simpl.
  by rewrite removelast_last.
Qed.

Lemma create_cases kind s h s' :
  create kind s = Some (h, s') →
  (removed (ast s) = [] ∧ h = to_u32 (N.of_nat (length (nodes (ast s)))) ∧
   nodes (ast s') = nodes (ast s) ++ [AstNode.ctor kind] ∧
   removed (ast s') = [] ∧ heap s' = heap s)
  ∨ (∃ l n, removed (ast s) = l ++ [h] ∧ nodes (ast s) !! N.to_nat h = Some n ∧
      nodes (ast s') = <[N.to_nat h := AstNode.set_kind kind n]> (nodes (ast s)) ∧
      removed (ast s') = l ∧ heap s' = heap s).
Proof.
  intros H. destruct (last (removed (ast s))) as [index|] eqn:E.
  - apply last_Some in E as [l E]. right.
    destruct (nodes (ast s) !! N.to_nat index) as [n|] eqn:Hn.
    + rewrite (create_reuse kind s l index n E Hn) in H.
      injection H as <- <-. by exists l, n.
    + unfold create in H. by rewrite E, last_snoc, Hn in H.
  - apply last_None in E. left.
    rewrite (create_fresh kind s E) in H. by injection H as <- <-.
Qed.

(** *** [remove] *)

Lemma clean_result n h n' h' :
  AstNode.clean n h = Some (n', h') → n' = AstNode.ctor Kind.None.
Proof.
  unfold AstNode.clean. intros H.
  apply bind_Some in H as (h1 & _ & [= <- _]). done.
Qed.

Lemma remove_cases index s s' :
  remove index s = Some (tt, s') →
  ∃ n, nodes (ast s) !! N.to_nat index = Some n ∧
       AstNode.clean n (heap s) = Some (AstNode.ctor Kind.None, heap s') ∧
       nodes (ast s') = <[N.to_nat index := AstNode.ctor Kind.None]> (nodes (ast s)) ∧
       removed (ast s') = removed (ast s) ++ [index].
Proof.
  unfold remove. intros H.
  apply bind_Some in H as (n & Hn & H).
  apply bind_Some in H as ([n' h'] & Hc & [= <-]).
  pose proof (clean_result _ _ _ _ Hc) as ->.
  by exists n.
Qed.

Lemma remove_defined index s n h' :
  nodes (ast s) !! N.to_nat index = Some n →
  AstNode.clean n (heap s) = Some (AstNode.ctor Kind.None, h') →
  remove index s =
    Some (tt, {| ast := {| nodes := <[N.to_nat index := AstNode.ctor Kind.None]> (nodes (ast s));
                           removed := removed (ast s) ++ [index] |};
                 heap := h' |}).
Proof. intros Hn Hc. unfold remove. rewrite Hn. simpl. by rewrite Hc. Qed.

(** In an arena of exactly [2^32] slots the handle of the fresh slot no
    longer fits 32 bits and comes back as [0]. *)
Lemma create_fresh_handle_wraps kind s h s' :
  removed (ast s) = [] →
  N.of_nat (length (nodes (ast s))) = 2 ^ 32 →
  create kind s = Some (h, s') → h = 0.
Proof.
  intros E Hlen. rewrite (create_fresh kind s E), Hlen. by intros [= <- _].
Qed.

(** C7. Slots other than the one an operation works on are left as they
    are: for a valid handle [h], a [create] that returns another handle
    and a [remove] of another handle leave the node at [h], kind and
    payload, unchanged. *)
Theorem other_slots_unchanged (s : State) (h : AstNodeIndex) (n : AstNode.t) :
  get_node h s = Some n →
  (∀ kind h' s', create kind s = Some (h', s') → h' ≠ h → get_node h s' = Some n) ∧
  (∀ h2 s', remove h2 s = Some (tt, s') → h2 ≠ h → get_node h s' = Some n).
Proof.
  unfold get_node. intros Hn. split.
  - intros kind h' s' Hc Hne.
    apply create_cases in Hc as [(_ & _ & -> & _)|(l & n' & _ & _ & -> & _)].
    + by apply lookup_app_l_Some.
    + rewrite list_lookup_insert_ne; [done|by apply to_nat_inj_ne].
  - intros h2 s' Hr Hne.
    apply remove_cases in Hr as (n' & _ & _ & -> & _).
    rewrite list_lookup_insert_ne; [done|by apply to_nat_inj_ne].
Qed.

(** C9. The free list is a stack: [create] returns its back, the handle
    removed last, and pops it. After [remove h1] and [remove h2] the next
    [create] returns [h2] and the one after it [h1]. *)
Theorem create_pops_last_removed :
  (∀ s l index kind,
     removed (ast s) = l ++ [index] →
     is_Some (get_node index s) →
     ∃ s', create kind s = Some (index, s') ∧ removed (ast s') = l) ∧
  (∀ s h1 h2 s1 s2 kind kind',
     remove h1 s = Some (tt, s1) →
     remove h2 s1 = Some (tt, s2) →
     ∃ s3 s4, create kind s2 = Some (h2, s3) ∧
              removed (ast s3) = removed (ast s) ++ [h1] ∧
              create kind' s3 = Some (h1, s4) ∧
              removed (ast s4) = removed (ast s)).
Proof.
  assert (Hpop : ∀ s l index kind,
     removed (ast s) = l ++ [index] →
     is_Some (get_node index s) →
     ∃ s', create kind s = Some (index, s') ∧ removed (ast s') = l
           ∧ length (nodes (ast s')) = length (nodes (ast s))).
  { intros s l index kind E [n Hn]. eexists. split.
    - by apply create_reuse.
    - simpl. by rewrite length_insert. }
  split.
  - intros s l index kind E Hn.
    destruct (Hpop s l index kind E Hn) as (s' & ? & ? & _). eauto.
  - intros s h1 h2 s1 s2 kind kind' H1 H2.
    apply remove_cases in H1 as (n1 & Hn1 & _ & Hnodes1 & Hrem1).
    apply remove_cases in H2 as (n2 & Hn2 & _ & Hnodes2 & Hrem2).
    apply lookup_lt_Some in Hn1, Hn2.
    rewrite Hnodes1, length_insert in Hn2.
    destruct (Hpop s2 (removed (ast s) ++ [h1]) h2 kind) as (s3 & Hc3 & Hr3 & Hl3).
    { by rewrite Hrem2, Hrem1. }
    { unfold get_node. apply lookup_lt_is_Some.
      by rewrite Hnodes2, length_insert, Hnodes1, length_insert. }
    destruct (Hpop s3 (removed (ast s)) h1 kind') as (s4 & Hc4 & Hr4 & _).
    { done. }
    { unfold get_node. apply lookup_lt_is_Some.
      by rewrite Hl3, Hnodes2, length_insert, Hnodes1, length_insert. }
    by exists s3, s4.
Qed.

Lemma other_slots_unchanged_witness :
  let s := {| ast := {| nodes := [AstNode.ctor Kind.I32Type; AstNode.ctor Kind.FunType];
                        removed := [] |};
              heap := ∅ |} in
  get_node 0 s = Some (AstNode.ctor Kind.I32Type) ∧
  (∃ s', remove 1 s = Some (tt, s') ∧
         get_node 0 s' = Some (AstNode.ctor Kind.I32Type)) ∧
  (∃ s', create Kind.WhileStmt s = Some (2, s') ∧
         get_node 0 s' = Some (AstNode.ctor Kind.I32Type)).
Proof.
  intros s. split; [reflexivity|].
  destruct (other_slots_unchanged s 0 _ eq_refl) as [Hcreate Hremove].
  split.
  - eexists. split; [vm_compute; reflexivity|].
    eapply (Hremove 1); [vm_compute; reflexivity|discriminate].
  - eexists. split; [vm_compute; reflexivity|].
    eapply (Hcreate Kind.WhileStmt 2); [vm_compute; reflexivity|discriminate].
Defined.

Lemma create_pops_last_removed_witness :
  let s := {| ast := {| nodes := [AstNode.ctor Kind.I32Type; AstNode.ctor Kind.FunType;
                                  AstNode.ctor Kind.Struct];
                        removed := [] |};
              heap := ∅ |} in
  ∃ s1 s2 s3 s4,
    remove 2 s = Some (tt, s1) ∧ remove 0 s1 = Some (tt, s2) ∧
    create Kind.WhileStmt s2 = Some (0, s3) ∧ removed (ast s3) = [2] ∧
    create Kind.U8Type s3 = Some (2, s4) ∧ removed (ast s4) = [] ∧
    ∃ s5, create Kind.F64Type s1 = Some (2, s5) ∧ removed (ast s5) = [].
Proof.
  intros s.
  destruct create_pops_last_removed as [Hpop Htwo].
  destruct (Htwo s 2 0 _ _ Kind.WhileStmt Kind.U8Type eq_refl eq_refl)
    as (s3 & s4 & H3 & Hr3 & H4 & Hr4).
  eexists _, _, s3, s4. split_and!; try done.
  apply (Hpop _ [] 2 Kind.F64Type); [reflexivity|].
  eexists. vm_compute. reflexivity.
Defined.

(** *** Client programs *)

Section Programs.

Variable UndefinedIdIndex : IdIndex.

Abbreviation exec := (exec UndefinedIdIndex).
Abbreviation run := (run UndefinedIdIndex).
Abbreviation disciplined := (disciplined UndefinedIdIndex).

(** A write changes one existing slot, and only [SetKind] changes its
    kind. *)
Lemma exec_written op s s' index :
  written op = Some index →
  exec op s = Some s' →
  ∃ n n' h', get_node index s = Some n ∧ s' = put_node index n' h' s ∧
             (AstNode.kind n' = AstNode.kind n ∨ ∃ kind, op = SetKind index kind).
Proof.
  destruct op; simpl; intros [= <-] H; try done;
    apply bind_Some in H as (n & Hn & H); exists n.
  - injection H as <-. eexists _, _. split_and!; [done|reflexivity|eauto].
  - injection H as <-. eexists _, _. split_and!; [done|reflexivity|by left].
  - apply bind_Some in H as ([ft h'] & _ & [= <-]).
    eexists _, _. split_and!; [done|reflexivity|by left].
  - apply bind_Some in H as ([nd h'] & _ & [= <-]).
    eexists _, _. split_and!; [done|reflexivity|by left].
  - apply bind_Some in H as ([sc h'] & _ & [= <-]).
    eexists _, _. split_and!; [done|reflexivity|by left].
  - apply bind_Some in H as ([b h'] & _ & [= <-]).
    eexists _, _. split_and!; [done|reflexivity|by left].
Qed.

Lemma exec_create kind s s' :
  exec (Create kind) s = Some s' ↔ ∃ h, create kind s = Some (h, s').
Proof.
  simpl. rewrite fmap_Some. split.
  - intros ([h s1] & ? & ->). eauto.
  - intros [h H]. by exists (h, s').
Qed.

Lemma exec_remove index s s' :
  exec (Remove index) s = Some s' ↔ remove index s = Some (tt, s').
Proof.
  simpl. rewrite fmap_Some. split.
  - by intros ([[] s1] & ? & ->).
  - intros H. by exists (tt, s').
Qed.

Lemma run_app ops ops' s :
  run (ops ++ ops') s = s' ← run ops s; run ops' s'.
Proof.
  revert s. induction ops as [|op ops IH]; intros s; simpl; [done|].
  destruct (exec op s); simpl; [apply IH|done].
Qed.

(** Every handle on the free list addresses a slot and was put there by
    a [remove]. *)
Lemma run_removed ops s s' :
  run ops s = Some s' →
  (∀ i, i ∈ removed (ast s) → (N.to_nat i < length (nodes (ast s)))%nat) →
  ∀ i, i ∈ removed (ast s') →
       (N.to_nat i < length (nodes (ast s')))%nat ∧
       (i ∈ removed (ast s) ∨ Remove i ∈ ops).
Proof.
  revert s. induction ops as [|op ops IH]; intros s Hrun Hs; simpl in Hrun.
  { injection Hrun as <-. intros i Hi. split; [by apply Hs|by left]. }
  apply bind_Some in Hrun as (s1 & Hop & Hrun).
  assert (H1 : ∀ i, i ∈ removed (ast s1) →
            (N.to_nat i < length (nodes (ast s1)))%nat ∧
            (i ∈ removed (ast s) ∨ op = Remove i)).
  { destruct (written op) as [index|] eqn:Hw.
    - destruct (exec_written _ _ _ _ Hw Hop) as (n & n' & h' & _ & -> & _).
      simpl. intros i Hi. rewrite length_insert. split; [by apply Hs|by left].
    - destruct op; try done.
      + apply exec_create in Hop as [h Hc].
        apply create_cases in Hc as [(_ & _ & _ & -> & _)|(l & n & E & _ & -> & -> & _)].
        * intros i Hi. by apply elem_of_nil in Hi.
        * intros i Hi. rewrite length_insert.
          assert (i ∈ removed (ast s)) by (rewrite E; apply elem_of_app; by left).
          split; [by apply Hs|by left].
      + apply exec_remove, remove_cases in Hop as (n & Hn & _ & -> & ->).
        intros i Hi. rewrite length_insert.
        apply elem_of_app in Hi as [Hi|Hi%list_elem_of_singleton].
        * split; [by apply Hs|by left].
        * subst. split; [by eapply lookup_lt_Some|by right]. }
  intros i Hi.
  destruct (IH s1 Hrun (λ j Hj, proj1 (H1 j Hj)) i Hi) as [Hlt [Hin|Hin]].
  - split; [done|]. destruct (H1 i Hin) as [_ [?| -> ]]; [by left|right; by left].
  - split; [done|]. right. by right.
Qed.

(** C6. [create] reuses a slot exactly when the free list is not empty,
    and the handle it returns is then one that an earlier [remove] was
    called with; with an empty free list it appends a fresh slot, and the
    handle, the slot count before the call narrowed to 32 bits, is that
    count for an arena of fewer than [2^32] slots. *)
Theorem create_reuses_or_appends (ops : list Op) (s : State) (kind : Kind.t) :
  run ops init = Some s →
  ∃ h s', create kind s = Some (h, s') ∧
    (removed (ast s) ≠ [] →
       last (removed (ast s)) = Some h ∧ Remove h ∈ ops ∧
       length (nodes (ast s')) = length (nodes (ast s)) ∧
       removed (ast s') = removelast (removed (ast s))) ∧
    (removed (ast s) = [] →
       nodes (ast s') = nodes (ast s) ++ [AstNode.ctor kind] ∧
       removed (ast s') = [] ∧
       h = to_u32 (N.of_nat (length (nodes (ast s)))) ∧
       (N.of_nat (length (nodes (ast s))) < 2 ^ 32 →
        h = N.of_nat (length (nodes (ast s))))).
Proof.
  intros Hrun.
  pose proof (run_removed ops init s Hrun) as Hrem.
  destruct (removed (ast s)) as [|i0 l0] eqn:E using rev_ind.
  - eexists _, _. split; [by apply create_fresh|]. split; [done|].
    intros _. simpl. split_and!; try done. apply to_u32_small.
  - clear IHl0.
    destruct (Hrem (λ i Hi, False_ind _ (proj1 (elem_of_nil i) Hi)) i0) as [Hlt [Hin|Hin]].
    { apply elem_of_app. right. by left. }
    { by apply elem_of_nil in Hin. }
    apply lookup_lt_is_Some in Hlt as [n Hn].
    eexists _, _. split; [by eapply create_reuse|]. split.
    + intros _. simpl. rewrite last_snoc, length_insert, removelast_last. done.
    + intros Hnil. by destruct l0.
Qed.

(** *** The contract of the caller and the state of free slots *)

Lemma allowed_written op s index :
  written op = Some index → allowed op s = live index s.
Proof. by destruct op; intros [= <-]. Qed.

Lemma live_spec index s :
  live index s = true ↔
  (N.to_nat index < length (nodes (ast s)))%nat ∧ index ∉ removed (ast s).
Proof.
  unfold live. by rewrite andb_true_iff, !bool_decide_eq_true.
Qed.

Lemma exec_free_slots_clean op s s' :
  allowed op s = true → exec op s = Some s' →
  free_slots_clean s → free_slots_clean s'.
Proof.
  intros Ha Hop [Hnd Hcl].
  destruct (written op) as [index|] eqn:Hw.
  - rewrite (allowed_written _ _ _ Hw) in Ha. apply live_spec in Ha as [_ Hnot].
    destruct (exec_written _ _ _ _ Hw Hop) as (n & n' & h' & _ & -> & _).
    split; [done|]. simpl. intros i Hi.
    rewrite list_lookup_insert_ne; [by apply Hcl|].
    apply to_nat_inj_ne. by intros ->.
  - destruct op; try done.
    + apply exec_create in Hop as [h Hc].
      apply create_cases in Hc as [(_ & _ & _ & Hr & _)|(l & n & E & _ & Hn & Hr & _)];
        unfold free_slots_clean; rewrite Hr.
      * split; [constructor|]. intros i Hi. by apply elem_of_nil in Hi.
      * rewrite E in Hnd, Hcl. apply NoDup_app in Hnd as (Hl & Hdisj & _).
        split; [done|]. intros i Hi. rewrite Hn.
        rewrite list_lookup_insert_ne.
        -- apply Hcl, elem_of_app. by left.
        -- apply to_nat_inj_ne. intros ->. apply (Hdisj i Hi). by left.
    + simpl in Ha. apply live_spec in Ha as [_ Hnot].
      apply exec_remove, remove_cases in Hop as (n & Hlk & _ & Hn & Hr).
      unfold free_slots_clean. rewrite Hr, Hn. split.
      * apply NoDup_app. split_and!; [done| |apply NoDup_singleton].
        intros i Hi ->%list_elem_of_singleton. done.
      * intros i Hi. destruct (decide (i = index)) as [->|Hne].
        -- apply list_lookup_insert_eq. by eapply lookup_lt_Some.
        -- rewrite list_lookup_insert_ne by (by apply to_nat_inj_ne).
           apply Hcl. apply elem_of_app in Hi as [Hi|Hi%list_elem_of_singleton]; done.
Qed.

Lemma run_free_slots_clean ops s s' :
  disciplined ops s = true → run ops s = Some s' →
  free_slots_clean s → free_slots_clean s'.
Proof.
  revert s. induction ops as [|op ops IH]; intros s Hd Hrun Hs; simpl in *.
  { by injection Hrun as <-. }
  apply andb_true_iff in Hd as [Ha Hd].
  destruct (exec op s) as [s1|] eqn:Hop; [|done]. simpl in Hrun.
  eapply IH; [done..|]. by eapply exec_free_slots_clean.
Qed.

(** With clean free slots, [create] gives a node of the kind asked for
    whose payload is all zero, on a handle that is off the free list. *)
Lemma create_zeroed kind s :
  free_slots_clean s →
  N.of_nat (length (nodes (ast s))) < 2 ^ 32 →
  ∃ h s', create kind s = Some (h, s') ∧
          get_node h s' = Some (AstNode.ctor kind) ∧
          h ∉ removed (ast s').
Proof.
  intros [Hnd Hcl] Hlen.
  destruct (removed (ast s)) as [|i0 l0] eqn:E using rev_ind.
  - eexists _, _. split; [by apply create_fresh|]. unfold get_node. simpl.
    rewrite (to_u32_small _ Hlen), Nat2N.id. split.
    + by rewrite lookup_app_r, Nat.sub_diag.
    + apply not_elem_of_nil.
  - clear IHl0.
    assert (Hn : nodes (ast s) !! N.to_nat i0 = Some (AstNode.ctor Kind.None)).
    { apply Hcl, elem_of_app. right. by left. }
    eexists _, _. split; [by eapply create_reuse|]. unfold get_node. simpl. split.
    + apply list_lookup_insert_eq. by eapply lookup_lt_Some.
    + apply NoDup_app in Hnd as (_ & Hdisj & _). intros Hi.
      apply (Hdisj i0 Hi). by left.
Qed.

(** A step that neither removes the node at [h] nor assigns its kind
    leaves that kind, and leaves [h] off the free list. *)
Lemma exec_kind_stable op s s1 h n :
  exec op s = Some s1 →
  get_node h s = Some n → h ∉ removed (ast s) →
  op ≠ Remove h → (∀ kind, op ≠ SetKind h kind) →
  ∃ n1, get_node h s1 = Some n1 ∧ AstNode.kind n1 = AstNode.kind n ∧
        h ∉ removed (ast s1).
Proof.
  unfold get_node. intros Hop Hn Hnot Hrm Hsk.
  destruct (written op) as [index|] eqn:Hw.
  - destruct (exec_written _ _ _ _ Hw Hop) as (n0 & n' & h' & Hn0 & -> & Hk).
    simpl. destruct (decide (index = h)) as [->|Hne].
    + exists n'. unfold get_node in Hn0. rewrite Hn in Hn0. injection Hn0 as <-.
      split_and!; [|by destruct Hk as [?|[k ->]]; [|destruct (Hsk k)]|done].
      apply list_lookup_insert_eq. by eapply lookup_lt_Some.
    + exists n. by rewrite list_lookup_insert_ne by (by apply to_nat_inj_ne).
  - destruct op; try done.
    + apply exec_create in Hop as [h0 Hc].
      apply create_cases in Hc as [(_ & _ & -> & -> & _)|(l & n0 & E & _ & -> & -> & _)].
      * exists n. split_and!; [by apply lookup_app_l_Some|done|apply not_elem_of_nil].
      * assert (h0 ≠ h).
        { intros ->. apply Hnot. rewrite E. apply elem_of_app. right. by left. }
        exists n. rewrite list_lookup_insert_ne by (by apply to_nat_inj_ne).
        split_and!; [done..|]. intros Hi. apply Hnot. rewrite E.
        apply elem_of_app. by left.
    + apply exec_remove, remove_cases in Hop as (n0 & _ & _ & -> & ->).
      assert (index ≠ h) by congruence.
      exists n. rewrite list_lookup_insert_ne by (by apply to_nat_inj_ne).
      split_and!; [done..|].
      intros [Hi|Hi%list_elem_of_singleton]%elem_of_app; done.
Qed.

Lemma run_kind_stable ops s s' h n :
  run ops s = Some s' →
  get_node h s = Some n → h ∉ removed (ast s) →
  Remove h ∉ ops → (∀ kind, SetKind h kind ∉ ops) →
  ∃ n', get_node h s' = Some n' ∧ AstNode.kind n' = AstNode.kind n.
Proof.
  revert s n. induction ops as [|op ops IH]; intros s n Hrun Hn Hnot Hrm Hsk;
    simpl in Hrun.
  { injection Hrun as <-. eauto. }
  apply bind_Some in Hrun as (s1 & Hop & Hrun).
  destruct (exec_kind_stable op s s1 h n Hop Hn Hnot) as (n1 & Hn1 & Hk1 & Hnot1).
  { intros ->. apply Hrm. by left. }
  { intros kind ->. apply (Hsk kind). by left. }
  destruct (IH s1 n1 Hrun Hn1 Hnot1) as (n' & Hn' & Hk').
  { intros Hi. apply Hrm. by right. }
  { intros kind Hi. apply (Hsk kind). by right. }
  exists n'. split; [done|congruence].
Qed.

Lemma init_free_slots_clean : free_slots_clean init.
Proof. split; [constructor|]. intros i Hi. by apply elem_of_nil in Hi. Qed.

(** C4. In an arena of fewer than [2^32] slots that its client has used
    within the contract (nodes written and removed through live handles
    only), the node at the handle [create kind] returns has kind [kind]
    and an all-zero payload, whether the slot is fresh or recycled after
    a [remove]; and its kind stays [kind] over any further operations
    that neither remove the node nor assign its kind. *)
Theorem create_kind_and_zero_payload (ops : list Op) (s : State) (kind : Kind.t) :
  disciplined ops init = true →
  run ops init = Some s →
  N.of_nat (length (nodes (ast s))) < 2 ^ 32 →
  ∃ h s', create kind s = Some (h, s') ∧
    get_node h s' = Some {| AstNode.kind := kind; AstNode.node := Node.zero |} ∧
    ∀ ops' s'',
      run ops' s' = Some s'' →
      Remove h ∉ ops' → (∀ kind', SetKind h kind' ∉ ops') →
      AstNode.kind <$> get_node h s'' = Some kind.
Proof.
  intros Hd Hrun Hlen.
  pose proof (run_free_slots_clean ops init s Hd Hrun init_free_slots_clean) as Hcl.
  destruct (create_zeroed kind s Hcl Hlen) as (h & s' & Hc & Hn & Hnot).
  exists h, s'. split_and!; [done..|].
  intros ops' s'' Hrun' Hrm Hsk.
  destruct (run_kind_stable ops' s' s'' h _ Hrun' Hn Hnot Hrm Hsk) as (n' & -> & Hk).
  simpl. by f_equal.
Qed.

End Programs.

(** *** Concrete runs *)

(** In the runs below the constant of [id_cache.hpp] is 99; none of them
    depends on its value. *)

Lemma create_reuses_or_appends_witness :
  (∃ s h s',
     run 99 build_and_remove init = Some s ∧
     create Kind.Struct s = Some (h, s') ∧
     Remove h ∈ build_and_remove ∧
     length (nodes (ast s')) = length (nodes (ast s))) ∧
  (∃ s h s',
     run 99 [Create Kind.I32Type; Create Kind.FunType] init = Some s ∧
     create Kind.Struct s = Some (h, s') ∧
     h = 2 ∧ nodes (ast s') = nodes (ast s) ++ [AstNode.ctor Kind.Struct]).
Proof.
  split.
  - eassert (Hrun : run 99 build_and_remove init = Some _) by (vm_compute; reflexivity).
    destruct (create_reuses_or_appends 99 build_and_remove _ Kind.Struct Hrun)
      as (h & s' & Hc & Hreuse & _).
    destruct Hreuse as (_ & Hin & Hlen & _); [discriminate|].
    eexists _, h, s'. split_and!; [exact Hrun|exact Hc|exact Hin|exact Hlen].
  - eassert (Hrun : run 99 [Create Kind.I32Type; Create Kind.FunType] init = Some _)
      by (vm_compute; reflexivity).
    destruct (create_reuses_or_appends 99 _ _ Kind.Struct Hrun)
      as (h & s' & Hc & _ & Hfresh).
    destruct Hfresh as (Hnodes & _ & _ & Hh); [reflexivity|].
    eexists _, h, s'. split_and!; [exact Hrun|exact Hc| |exact Hnodes].
    apply Hh. reflexivity.
Defined.

Lemma create_kind_and_zero_payload_witness :
  ∃ s h s' s'',
    disciplined 99 build_and_remove init = true ∧
    run 99 build_and_remove init = Some s ∧
    N.of_nat (length (nodes (ast s))) < 2 ^ 32 ∧
    get_node 1 s = Some (AstNode.ctor Kind.None) ∧
    create Kind.Struct s = Some (h, s') ∧
    get_node h s' = Some (AstNode.ctor Kind.Struct) ∧
    run 99 [AddNode 1 0 7; Create Kind.I8Type; Remove 0] s' = Some s'' ∧
    AstNode.kind <$> get_node h s'' = Some Kind.Struct.
Proof.
  eassert (Hrun : run 99 build_and_remove init = Some _) by (vm_compute; reflexivity).
  assert (Hd : disciplined 99 build_and_remove init = true) by (vm_compute; reflexivity).
  destruct (create_kind_and_zero_payload 99 build_and_remove _ Kind.Struct Hd Hrun)
    as (h & s' & Hc & Hn & Hstable); [reflexivity|].
  pose proof Hc as Hc'. vm_compute in Hc'. injection Hc' as Hh Hs'. subst h.
  eassert (Hrun' : run 99 [AddNode 1 0 7; Create Kind.I8Type; Remove 0] s' = Some _)
    by (rewrite <- Hs'; vm_compute; reflexivity).
  eexists _, _, _, _.
  split_and!; [exact Hd|exact Hrun|reflexivity|reflexivity|exact Hc|exact Hn
              |exact Hrun'|].
  apply (Hstable _ _ Hrun').
  - intros Hin. apply list_elem_of_In in Hin. simpl in Hin.
    destruct Hin as [H|[H|[H|[]]]]; discriminate H.
  - intros kind' Hin. apply list_elem_of_In in Hin. simpl in Hin.
    destruct Hin as [H|[H|[H|[]]]]; discriminate H.
Defined.

(** Before the removal the slot had a payload that was not zero. *)
Example build_payload_not_zero :
  ∃ s n, run 99 (removelast build_and_remove) init = Some s ∧
         get_node 1 s = Some n ∧ AstNode.node n ≠ Node.zero.
Proof. eexists _, _. split_and!; [vm_compute; reflexivity..|discriminate]. Qed.

(** Outside the contract the recycled path shows that it writes the kind
    only: a handle removed twice is handed out twice, and the second
    [create] finds the payload the first owner wrote. *)
Example create_after_double_remove :
  ∃ s s' n,
    run 99 [Create Kind.FunType; Remove 0; Remove 0; Create Kind.Struct;
            AddNode 0 7 3] init = Some s ∧
    create Kind.Union s = Some (0, s') ∧
    get_node 0 s' = Some n ∧
    AstNode.kind n = Kind.Union ∧ AstNode.node n ≠ Node.zero.
Proof.
  eexists _, _, _. split_and!; [vm_compute; reflexivity..|discriminate].
Qed.

(** *** What [remove] releases *)

Lemma delete_vector_cases p h h' :
  delete_vector p h = Some h' →
  (p = nullptr ∧ h' = h) ∨ (p ≠ nullptr ∧ is_Some (h !! p) ∧ h' = delete p h).
Proof.
  unfold delete_vector. case_decide; [intros [= <-]; by left|].
  destruct (h !! p) as [[v|d]|] eqn:E; intros [= <-]. right. eauto.
Qed.

Lemma delete_dict_cases p h h' :
  delete_dict p h = Some h' →
  (p = nullptr ∧ h' = h) ∨ (p ≠ nullptr ∧ is_Some (h !! p) ∧ h' = delete p h).
Proof.
  unfold delete_dict. case_decide; [intros [= <-]; by left|].
  destruct (h !! p) as [[v|d]|] eqn:E; intros [= <-]. right. eauto.
Qed.

(** A pointer that is not allocated stays so across a [delete]. *)
Lemma delete_vector_keeps_free p h h' q :
  delete_vector p h = Some h' → h !! q = None → h' !! q = None.
Proof.
  intros [[_ ->]|(_ & _ & ->)]%delete_vector_cases Hq; [done|].
  apply lookup_delete_None. by right.
Qed.

Lemma delete_vector_released p h h' :
  delete_vector p h = Some h' → p ≠ nullptr → h' !! p = None.
Proof.
  intros [[-> _]|(_ & _ & ->)]%delete_vector_cases Hp; [done|].
  apply lookup_delete_eq.
Qed.

Lemma delete_dict_released p h h' :
  delete_dict p h = Some h' → p ≠ nullptr → h' !! p = None.
Proof.
  intros [[-> _]|(_ & _ & ->)]%delete_dict_cases Hp; [done|].
  apply lookup_delete_eq.
Qed.

(** For the kinds [clean] has a case for, the vectors and the dictionary
    the node points to are no longer allocated afterwards. *)
Lemma clean_releases n h n' h' :
  AstNode.clean n h = Some (n', h') →
  let nd := AstNode.node n in
  match AstNode.kind n with
  | Kind.FunTypeWithNamedParams =>
      (Node.names nd ≠ nullptr → h' !! Node.names nd = None) ∧
      (FunType.param_types (Node.fun_type nd) ≠ nullptr →
       h' !! FunType.param_types (Node.fun_type nd) = None)
  | Kind.FunType =>
      FunType.param_types (Node.fun_type nd) ≠ nullptr →
      h' !! FunType.param_types (Node.fun_type nd) = None
  | Kind.Function | Kind.Struct | Kind.Union =>
      Scope.dict (Node.scope nd) ≠ nullptr → h' !! Scope.dict (Node.scope nd) = None
  | Kind.BlockStmt =>
      BlockStmt.stmts (Node.block_stmt nd) ≠ nullptr →
      h' !! BlockStmt.stmts (Node.block_stmt nd) = None
  | _ => h' = h
  end.
Proof.
  unfold AstNode.clean. intros H.
  apply bind_Some in H as (h1 & H & [= _ <-]).
  destruct (AstNode.kind n); simpl; try (by injection H as <-);
    eauto using delete_vector_released, delete_dict_released.
  apply bind_Some in H as (h0 & H0 & H1). split.
  - intros Hp. eapply delete_vector_keeps_free; [done|].
    by eapply delete_vector_released.
  - by eapply delete_vector_released.
Qed.

(** [remove] on a valid handle resets the slot and pushes the handle. *)
Lemma remove_resets_slot index s s' :
  remove index s = Some (tt, s') →
  get_node index s' = Some {| AstNode.kind := Kind.None; AstNode.node := Node.zero |} ∧
  removed (ast s') = removed (ast s) ++ [index] ∧
  length (nodes (ast s')) = length (nodes (ast s)).
Proof.
  intros (n & Hn & _ & Hnodes & Hrem)%remove_cases. unfold get_node.
  rewrite Hnodes, Hrem, length_insert. split_and!; [|done..].
  apply list_lookup_insert_eq. by eapply lookup_lt_Some.
Qed.

(** C5. [clean] has no case for [BlockScope]: removing a [BlockScope] node
    whose scope owns a dictionary resets the slot and pushes the handle,
    but the dictionary stays allocated, and the pointer to it is gone. The
    same client code on a [Function] node leaves nothing allocated. *)
Theorem remove_BlockScope_keeps_dict (UndefinedIdIndex : IdIndex) :
  (∃ s p d,
     run UndefinedIdIndex (block_scope_program UndefinedIdIndex) init = Some s ∧
     get_node 0 s = Some (AstNode.ctor Kind.None) ∧
     removed (ast s) = [0] ∧
     p ≠ nullptr ∧ heap s !! p = Some (Dict d)) ∧
  (∃ s,
     run UndefinedIdIndex (function_scope_program UndefinedIdIndex) init = Some s ∧
     get_node 0 s = Some (AstNode.ctor Kind.None) ∧
     removed (ast s) = [0] ∧
     heap s = ∅).
Proof.
  split.
  - eexists _, 1, _. split_and!; [vm_compute; reflexivity|done|done|done|].
    vm_compute. reflexivity.
  - eexists. split_and!; [vm_compute; reflexivity|done..].
Qed.

End AstFacts.

(** ** More on OrderedDict *)

Module OrderedDictMore.
Import OrderedDict OrderedDictFacts.

Lemma call_names_app cs cs' : call_names (cs ++ cs') = call_names cs ++ call_names cs'.
Proof.
  induction cs as [|[name v|v] cs IH]; simpl; [done| |done]. by rewrite IH.
Qed.

Lemma unnamed_count_app cs cs' :
  unnamed_count (cs ++ cs') = (unnamed_count cs + unnamed_count cs')%nat.
Proof.
  induction cs as [|[name v|v] cs IH]; simpl; [done|done|]. by rewrite IH.
Qed.

Lemma earliest_None_names name cs : earliest name cs = None ↔ name ∉ call_names cs.
Proof.
  induction cs as [|[name' v|v] cs IH]; simpl.
  - split; [intros _; apply not_elem_of_nil|done].
  - case_decide as Hn.
    + subst. split; [done|]. intros H. exfalso. apply H. by left.
    + rewrite IH, not_elem_of_cons. split; [by split|by intros [_ ?]].
  - done.
Qed.

(** One call: what it does to the map and to the order. *)
Lemma do_call_cases d c :
  (m_map (do_call d c) = m_map d ∧ get_nodes (do_call d c) = get_nodes d)
  ∨ (m_map (do_call d c) = m_map d ∧
     get_nodes (do_call d c) = get_nodes d ++ [call_node c] ∧
     ∃ v, c = Unnamed v)
  ∨ (∃ name v, c = Named name v ∧ m_map d !! name = None ∧
     m_map (do_call d c) = <[name := v]> (m_map d) ∧
     get_nodes (do_call d c) = get_nodes d ++ [v]).
Proof.
  destruct c as [name v|v]; simpl.
  - unfold append_named. destruct (m_map d !! name) eqn:E.
    + by left.
    + right. right. by exists name, v.
  - right. left. eauto.
Qed.



(** X2. The ordered sequence has one entry per name of the lookup mapping
    and one per unnamed append, and no other. *)
Theorem get_nodes_length (cs : list call) :
  length (get_nodes (run cs)) = (size (m_map (run cs)) + unnamed_count cs)%nat.
Proof.
  induction cs as [|c cs IH] using rev_ind; [done|].
  rewrite run_snoc, unnamed_count_app.
  destruct (do_call_cases (run cs) c)
    as [[Hm Hn]|[(-> & -> & v & ->)|(name' & v' & -> & Hnone & -> & ->)]].
  - rewrite Hm, Hn, IH. destruct c as [name v|v]; simpl; [lia|].
    unfold get_nodes in Hn. simpl in Hn.
    apply (f_equal length) in Hn. rewrite length_app in Hn. simpl in Hn. lia.
  - rewrite length_app, IH. simpl. lia.
  - rewrite length_app, IH, map_size_insert_None by done. simpl. lia.
Qed.

(** X3. When no name is appended twice nothing is dropped: the ordered
    sequence is the sequence of the handles passed, call by call. *)
Theorem get_nodes_distinct_names (cs : list call) :
  NoDup (call_names cs) →
  get_nodes (run cs) = call_node <$> cs.
Proof.
  induction cs as [|c cs IH] using rev_ind; [done|].
  rewrite call_names_app, fmap_app, run_snoc. intros (Hnd & Hdisj & _)%NoDup_app.
  rewrite <- (IH Hnd). destruct c as [name v|v]; simpl; [|done].
  unfold append_named. rewrite m_map_run.
  destruct (earliest name cs) eqn:E; [|done].
  exfalso. assert (Hin : name ∈ call_names cs).
  { destruct (decide (name ∈ call_names cs)) as [?|Hn]; [done|].
    apply earliest_None_names in Hn. congruence. }
  apply (Hdisj name Hin). simpl. by left.
Qed.

Lemma get_nodes_distinct_names_witness :
  NoDup (call_names [Named 3 10; Unnamed 11; Named 4 12; Unnamed 11]) ∧
  get_nodes (run [Named 3 10; Unnamed 11; Named 4 12; Unnamed 11]) = [10; 11; 12; 11].
Proof.
  assert (Hnd : NoDup (call_names [Named 3 10; Unnamed 11; Named 4 12; Unnamed 11])).
  { apply (bool_decide_unpack (NoDup _)). vm_compute. exact I. }
  split; [exact Hnd|]. exact (get_nodes_distinct_names _ Hnd).
Defined.

(** X4. Appends only add: after more calls the ordered sequence has the
    old one as a prefix, and every name keeps the node it was mapped to. *)
Theorem run_extends (cs cs' : list call) :
  get_nodes (run cs) `prefix_of` get_nodes (run (cs ++ cs')) ∧
  m_map (run cs) ⊆ m_map (run (cs ++ cs')).
Proof.
  induction cs' as [|c cs' [IHn IHm]] using rev_ind.
  - by rewrite app_nil_r.
  - rewrite app_assoc, run_snoc.
    destruct (do_call_cases (run (cs ++ cs')) c)
      as [[-> ->]|[(-> & -> & _)|(name' & v' & _ & Hnone & -> & ->)]].
    + done.
    + split; [by apply prefix_app_r|done].
    + split; [by apply prefix_app_r|].
      etrans; [exact IHm|]. by apply insert_subseteq.
Qed.

End OrderedDictMore.

(** ** More on the classification predicates *)

Module KindMore.

(** X5. With [is_expr] added the predicates are still disjoint, and they
    do not cover the enumeration: a kind is accepted by exactly one of
    [is_type], [is_value], [is_stmt], [is_scope], [is_expr], except the
    seven kinds of [unclassified], which none of them accepts. *)
Theorem classification_partial (k : Kind.t) :
  let accepted :=
    length (filter (λ b, b = true)
              [is_type k; is_value k; is_stmt k; is_scope k; is_expr k]) in
  (k ∈ unclassified ↔ accepted = 0%nat) ∧ (k ∉ unclassified ↔ accepted = 1%nat).
Proof.
  intros accepted.
  assert (Hb : bool_decide (k ∈ unclassified) = (accepted =? 0)%nat
               ∧ (accepted <=? 1)%nat = true)
    by (subst accepted; destruct k; vm_compute; split; reflexivity).
  destruct Hb as [Hb Hle]. apply Nat.leb_le in Hle.
  destruct (decide (k ∈ unclassified)) as [Hin|Hnot].
  - rewrite bool_decide_eq_true_2 in Hb by done.
    symmetry in Hb. apply Nat.eqb_eq in Hb.
    split; split; try done. lia.
  - rewrite bool_decide_eq_false_2 in Hb by done.
    symmetry in Hb. apply Nat.eqb_neq in Hb.
    split; split; try done. lia.
Qed.

End KindMore.

(** ** The lists and dictionaries a node owns *)

Module Ownership.

Lemma new_addr_fresh (h : Heap) : new_addr h ≠ nullptr ∧ h !! new_addr h = None.
Proof.
  unfold new_addr. pose proof (is_fresh ({[nullptr]} ∪ dom h)) as Hf.
  apply not_elem_of_union in Hf as [H0 Hd]. split.
  - intros E. apply H0. apply elem_of_singleton. exact E.
  - by apply not_elem_of_dom.
Qed.

Lemma update_owned_null init step h o' :
  step init = Some o' →
  update_owned init step nullptr h = Some (new_addr h, <[new_addr h := o']> h).
Proof.
  intros Hs. unfold update_owned, new. rewrite decide_True by done.
  rewrite lookup_insert_eq. simpl. rewrite Hs. simpl. by rewrite insert_insert_eq.
Qed.

Lemma update_owned_alloc init step p h o o' :
  p ≠ nullptr → h !! p = Some o → step o = Some o' →
  update_owned init step p h = Some (p, <[p := o']> h).
Proof.
  intros Hp Ho Hs. unfold update_owned. rewrite decide_False by done.
  rewrite Ho. simpl. by rewrite Hs.
Qed.

(** The four helpers in the shared shape. *)
Lemma add_param_type_update type ft h :
  FunType.add_param_type type ft h =
  '(p, h') ← update_owned (Vector []) (push_back type) (FunType.param_types ft) h;
  Some (FunType.mk (FunType.return_type ft) p (FunType.name ft), h').
Proof.
  unfold FunType.add_param_type, update_owned.
  destruct (decide (FunType.param_types ft = nullptr)); simpl;
    by destruct (_ !! _) as [[v|d]|].
Qed.

Lemma add_name_update id nd h :
  Node.add_name id nd h =
  '(p, h') ← update_owned (Vector []) (push_back id) (Node.names nd) h;
  Some (Node.set_names p nd, h').
Proof.
  unfold Node.add_name, update_owned.
  destruct (decide (Node.names nd = nullptr)); simpl;
    by destruct (_ !! _) as [[v|d]|].
Qed.

Lemma add_stmt_update node_idx b h :
  BlockStmt.add_stmt node_idx b h =
  '(p, h') ← update_owned (Vector []) (push_back node_idx) (BlockStmt.stmts b) h;
  Some (BlockStmt.mk (BlockStmt.block_scope b) p, h').
Proof.
  unfold BlockStmt.add_stmt, update_owned.
  destruct (decide (BlockStmt.stmts b = nullptr)); simpl;
    by destruct (_ !! _) as [[v|d]|].
Qed.

Lemma add_member_update U m sc h :
  add_member U m sc h =
  '(p, h') ← update_owned (Dict OrderedDict.empty) (dict_call (member_call U m))
               (Scope.dict sc) h;
  Some (Scope.mk (Scope.outer_scope sc) (Scope.name sc) p, h').
Proof.
  unfold add_member, Scope.add_node, update_owned, member_call.
  destruct (decide (Scope.dict sc = nullptr)); simpl;
    destruct (_ !! _) as [[v|d]|]; simpl; try done;
    by destruct (decide (m.2 ≠ U)).
Qed.

Lemma fold_push_back xs v :
  fold_steps push_back xs (Vector v) = Some (Vector (v ++ xs)).
Proof.
  revert v. induction xs as [|x xs IH]; intros v; simpl.
  - by rewrite app_nil_r.
  - by rewrite IH, <- app_assoc.
Qed.

Lemma fold_dict_call cs d :
  fold_steps dict_call cs (Dict d) = Some (Dict (OrderedDict.run_from d cs)).
Proof.
  revert d. induction cs as [|c cs IH]; intros d; simpl; [done|]. by rewrite IH.
Qed.

Lemma fold_steps_fmap {B C} (g : B → C) step (bs : list B) o :
  fold_steps (λ b, step (g b)) bs o = fold_steps step (g <$> bs) o.
Proof.
  revert o. induction bs as [|b bs IH]; intros o; simpl; [done|].
  destruct (step (g b) o); simpl; [apply IH|done].
Qed.

Section Owned.

Context {A B : Type}.
Variable get : A → ptr.
Variable set : ptr → A → A.
Variable init : HeapObj.
Variable step : B → HeapObj → option HeapObj.
Variable f : B → A → Heap → option (A * Heap).

Hypothesis f_update : ∀ b a h,
  f b a h = '(p, h') ← update_owned init (step b) (get a) h; Some (set p a, h').
Hypothesis get_set : ∀ p a, get (set p a) = p.
Hypothesis set_get : ∀ a, set (get a) a = a.

(** The pointer addresses an object: it is updated in place. *)
Lemma fold_add_alloc bs a h o o' :
  get a ≠ nullptr → h !! get a = Some o →
  fold_steps step bs o = Some o' →
  fold_add f bs a h = Some (a, <[get a := o']> h).
Proof.
  revert a h o. induction bs as [|b bs IH]; intros a h o Hp Ho Hs; simpl in *.
  - injection Hs as <-. by rewrite insert_id.
  - apply bind_Some in Hs as (o1 & Hs1 & Hs).
    rewrite f_update, (update_owned_alloc _ _ _ _ _ _ Hp Ho Hs1). simpl.
    rewrite set_get.
    rewrite (IH a (<[get a := o1]> h) o1 Hp (lookup_insert_eq _ _ _) Hs).
    by rewrite insert_insert_eq.
Qed.

(** The pointer is null: the first use allocates, at an address that is
    neither null nor in use. *)
Lemma fold_add_null b bs a h o' :
  get a = nullptr →
  fold_steps step (b :: bs) init = Some o' →
  fold_add f (b :: bs) a h = Some (set (new_addr h) a, <[new_addr h := o']> h).
Proof.
  intros Hp Hs. simpl in *.
  apply bind_Some in Hs as (o1 & Hs1 & Hs).
  rewrite f_update, Hp, (update_owned_null _ _ _ _ Hs1). simpl.
  destruct (new_addr_fresh h) as [Hn _].
  rewrite (fold_add_alloc bs (set (new_addr h) a) (<[new_addr h := o1]> h) o1 o').
  - by rewrite get_set, insert_insert_eq.
  - by rewrite get_set.
  - rewrite get_set. apply lookup_insert_eq.
  - done.
Qed.

End Owned.

(** The null-pointer case of the four helpers: the first call allocates. *)
Lemma add_param_types_null type types ft h :
  FunType.param_types ft = nullptr →
  fold_add FunType.add_param_type (type :: types) ft h =
    Some (FunType.mk (FunType.return_type ft) (new_addr h) (FunType.name ft),
          <[new_addr h := Vector (type :: types)]> h).
Proof.
  intros Hp.
  apply (fold_add_null FunType.param_types
           (λ p ft, FunType.mk (FunType.return_type ft) p (FunType.name ft))
           (Vector []) push_back FunType.add_param_type);
    [apply add_param_type_update|done|by intros []|done|apply fold_push_back].
Qed.

Lemma add_names_null id ids nd h :
  Node.names nd = nullptr →
  fold_add Node.add_name (id :: ids) nd h =
    Some (Node.set_names (new_addr h) nd, <[new_addr h := Vector (id :: ids)]> h).
Proof.
  intros Hp.
  apply (fold_add_null Node.names Node.set_names (Vector []) push_back Node.add_name);
    [apply add_name_update|done|by intros []|done|apply fold_push_back].
Qed.

Lemma add_stmts_null stmt stmts b h :
  BlockStmt.stmts b = nullptr →
  fold_add BlockStmt.add_stmt (stmt :: stmts) b h =
    Some (BlockStmt.mk (BlockStmt.block_scope b) (new_addr h),
          <[new_addr h := Vector (stmt :: stmts)]> h).
Proof.
  intros Hp.
  apply (fold_add_null BlockStmt.stmts
           (λ p b, BlockStmt.mk (BlockStmt.block_scope b) p)
           (Vector []) push_back BlockStmt.add_stmt);
    [apply add_stmt_update|done|by intros []|done|apply fold_push_back].
Qed.

Lemma add_members_null U m members sc h :
  Scope.dict sc = nullptr →
  fold_add (add_member U) (m :: members) sc h =
    Some (Scope.mk (Scope.outer_scope sc) (Scope.name sc) (new_addr h),
          <[new_addr h := Dict (OrderedDict.run (member_call U <$> m :: members))]> h).
Proof.
  intros Hp.
  apply (fold_add_null Scope.dict
           (λ p sc, Scope.mk (Scope.outer_scope sc) (Scope.name sc) p)
           (Dict OrderedDict.empty)
           (λ m, dict_call (member_call U m))
           (add_member U));
    [apply add_member_update|done|by intros []|done|].
  rewrite fold_steps_fmap. apply fold_dict_call.
Qed.

(** X6. [add_param_type], called for each of [types] in order: on a null
    pointer the first call allocates a vector at an address that is not
    null and not in use, and the vector ends up holding [types] in call
    order; on an allocated vector the types are appended. The return type
    and the name of the function type are not touched. *)
Theorem add_param_types_contents
    (types : list AstNodeIndex) (ft : FunType.t) (h : Heap) :
  (FunType.param_types ft = nullptr → types ≠ [] →
   new_addr h ≠ nullptr ∧ h !! new_addr h = None ∧
   fold_add FunType.add_param_type types ft h =
     Some (FunType.mk (FunType.return_type ft) (new_addr h) (FunType.name ft),
           <[new_addr h := Vector types]> h)) ∧
  (∀ v, FunType.param_types ft ≠ nullptr →
        h !! FunType.param_types ft = Some (Vector v) →
        fold_add FunType.add_param_type types ft h =
          Some (ft, <[FunType.param_types ft := Vector (v ++ types)]> h)).
Proof.
  split.
  - intros Hp Hne. destruct (new_addr_fresh h) as [Hn Hf]. split_and!; [done..|].
    destruct types as [|type types]; [done|]. by apply add_param_types_null.
  - intros v Hp Hv.
    apply (fold_add_alloc FunType.param_types
             (λ p ft, FunType.mk (FunType.return_type ft) p (FunType.name ft))
             (Vector []) push_back FunType.add_param_type) with (o := Vector v);
      [apply add_param_type_update|by intros []|done|done|apply fold_push_back].
Qed.

Lemma add_param_types_contents_witness :
  (∃ p, fold_add FunType.add_param_type [3; 4; 3] FunType.zero ∅ =
          Some (FunType.mk 0 p 0, <[p := Vector [3; 4; 3]]> ∅)) ∧
  fold_add FunType.add_param_type [3; 4] (FunType.mk 6 5 7) {[5 := Vector [1]]} =
    Some (FunType.mk 6 5 7, <[5 := Vector [1; 3; 4]]> {[5 := Vector [1]]}).
Proof.
  split.
  - exists (new_addr ∅).
    apply (proj1 (add_param_types_contents [3; 4; 3] FunType.zero ∅));
      [reflexivity|discriminate].
  - apply (proj2 (add_param_types_contents [3; 4] (FunType.mk 6 5 7)
                    {[5 := Vector [1]]}) [1]); [discriminate|reflexivity].
Defined.

(** X7. [add_name], called for each of [ids] in order, does the same for
    the name list of a function type with named parameters, and leaves
    every other member of the payload as it is. *)
Theorem add_names_contents (ids : list IdIndex) (nd : Node.t) (h : Heap) :
  (Node.names nd = nullptr → ids ≠ [] →
   new_addr h ≠ nullptr ∧ h !! new_addr h = None ∧
   fold_add Node.add_name ids nd h =
     Some (Node.set_names (new_addr h) nd, <[new_addr h := Vector ids]> h)) ∧
  (∀ v, Node.names nd ≠ nullptr →
        h !! Node.names nd = Some (Vector v) →
        fold_add Node.add_name ids nd h =
          Some (nd, <[Node.names nd := Vector (v ++ ids)]> h)).
Proof.
  split.
  - intros Hp Hne. destruct (new_addr_fresh h) as [Hn Hf]. split_and!; [done..|].
    destruct ids as [|id ids]; [done|]. by apply add_names_null.
  - intros v Hp Hv.
    apply (fold_add_alloc Node.names
             Node.set_names
             (Vector []) push_back Node.add_name) with (o := Vector v);
      [apply add_name_update|by intros []|done|done|apply fold_push_back].
Qed.

Lemma add_names_contents_witness :
  (∃ p, fold_add Node.add_name [8; 9] Node.zero ∅ =
          Some (Node.set_names p Node.zero, <[p := Vector [8; 9]]> ∅)) ∧
  fold_add Node.add_name [9] (Node.set_names 5 Node.zero) {[5 := Vector [8]]} =
    Some (Node.set_names 5 Node.zero, <[5 := Vector [8; 9]]> {[5 := Vector [8]]}).
Proof.
  split.
  - exists (new_addr ∅).
    apply (proj1 (add_names_contents [8; 9] Node.zero ∅)); [reflexivity|discriminate].
  - apply (proj2 (add_names_contents [9] (Node.set_names 5 Node.zero)
                    {[5 := Vector [8]]}) [8]); [discriminate|reflexivity].
Defined.

(** X8. [add_stmt], called for each of [stmts] in order, builds the
    statement list of a block the same way; the block scope handle is not
    touched. *)
Theorem add_stmts_contents (stmts : list AstNodeIndex) (b : BlockStmt.t) (h : Heap) :
  (BlockStmt.stmts b = nullptr → stmts ≠ [] →
   new_addr h ≠ nullptr ∧ h !! new_addr h = None ∧
   fold_add BlockStmt.add_stmt stmts b h =
     Some (BlockStmt.mk (BlockStmt.block_scope b) (new_addr h),
           <[new_addr h := Vector stmts]> h)) ∧
  (∀ v, BlockStmt.stmts b ≠ nullptr →
        h !! BlockStmt.stmts b = Some (Vector v) →
        fold_add BlockStmt.add_stmt stmts b h =
          Some (b, <[BlockStmt.stmts b := Vector (v ++ stmts)]> h)).
Proof.
  split.
  - intros Hp Hne. destruct (new_addr_fresh h) as [Hn Hf]. split_and!; [done..|].
    destruct stmts as [|stmt stmts]; [done|]. by apply add_stmts_null.
  - intros v Hp Hv.
    apply (fold_add_alloc BlockStmt.stmts
             (λ p b, BlockStmt.mk (BlockStmt.block_scope b) p)
             (Vector []) push_back BlockStmt.add_stmt) with (o := Vector v);
      [apply add_stmt_update|by intros []|done|done|apply fold_push_back].
Qed.

Lemma add_stmts_contents_witness :
  (∃ p, fold_add BlockStmt.add_stmt [2; 3] BlockStmt.zero ∅ =
          Some (BlockStmt.mk 0 p, <[p := Vector [2; 3]]> ∅)) ∧
  fold_add BlockStmt.add_stmt [3] (BlockStmt.mk 1 5) {[5 := Vector [2]]} =
    Some (BlockStmt.mk 1 5, <[5 := Vector [2; 3]]> {[5 := Vector [2]]}).
Proof.
  split.
  - exists (new_addr ∅).
    apply (proj1 (add_stmts_contents [2; 3] BlockStmt.zero ∅));
      [reflexivity|discriminate].
  - apply (proj2 (add_stmts_contents [3] (BlockStmt.mk 1 5)
                    {[5 := Vector [2]]}) [2]); [discriminate|reflexivity].
Defined.

(** X9. [Scope::add_node], called for each member in order, keeps in the
    heap the dictionary that the calls it dispatches to build: a member
    whose name is not [UndefinedIdIndex] goes through the named [append],
    any other through the unnamed one. The dictionary is allocated by the
    first call; the outer scope and the name of the scope are not
    touched. *)
Theorem add_members_dict (UndefinedIdIndex : IdIndex)
    (members : list (AstNodeIndex * IdIndex)) (sc : Scope.t) (h : Heap) :
  (Scope.dict sc = nullptr → members ≠ [] →
   new_addr h ≠ nullptr ∧ h !! new_addr h = None ∧
   fold_add (add_member UndefinedIdIndex) members sc h =
     Some (Scope.mk (Scope.outer_scope sc) (Scope.name sc) (new_addr h),
           <[new_addr h :=
               Dict (OrderedDict.run (member_call UndefinedIdIndex <$> members))]> h)) ∧
  (∀ d, Scope.dict sc ≠ nullptr →
        h !! Scope.dict sc = Some (Dict d) →
        fold_add (add_member UndefinedIdIndex) members sc h =
          Some (sc, <[Scope.dict sc :=
                        Dict (OrderedDict.run_from d
                                (member_call UndefinedIdIndex <$> members))]> h)).
Proof.
  split.
  - intros Hp Hne. destruct (new_addr_fresh h) as [Hn Hf]. split_and!; [done..|].
    destruct members as [|m members]; [done|]. by apply add_members_null.
  - intros d Hp Hd.
    apply (fold_add_alloc Scope.dict
             (λ p sc, Scope.mk (Scope.outer_scope sc) (Scope.name sc) p)
             (Dict OrderedDict.empty)
             (λ m, dict_call (member_call UndefinedIdIndex m))
             (add_member UndefinedIdIndex)) with (o := Dict d);
      [apply add_member_update|by intros []|done|done|].
    rewrite fold_steps_fmap. apply fold_dict_call.
Qed.

Lemma add_members_dict_witness :
  (∃ p, fold_add (add_member 99) [(10, 3); (11, 99); (12, 3)] Scope.zero ∅ =
          Some (Scope.mk 0 0 p,
                <[p := Dict (OrderedDict.run
                               [OrderedDict.Named 3 10; OrderedDict.Unnamed 11;
                                OrderedDict.Named 3 12])]> ∅)) ∧
  fold_add (add_member 99) [(11, 4)] (Scope.mk 1 2 5) {[5 := Dict OrderedDict.empty]} =
    Some (Scope.mk 1 2 5,
          <[5 := Dict (OrderedDict.run [OrderedDict.Named 4 11])]>
            {[5 := Dict OrderedDict.empty]}).
Proof.
  split.
  - exists (new_addr ∅).
    apply (proj1 (add_members_dict 99 [(10, 3); (11, 99); (12, 3)] Scope.zero ∅));
      [reflexivity|discriminate].
  - apply (proj2 (add_members_dict 99 [(11, 4)] (Scope.mk 1 2 5)
                    {[5 := Dict OrderedDict.empty]}) OrderedDict.empty);
      [discriminate|reflexivity].
Defined.




(** X11. [clean] frees nothing but what the four pointers of the node
    address and allocates nothing: every other heap object is still there
    and unchanged. *)
Theorem clean_frame (n n' : AstNode.t) (h h' : Heap) :
  AstNode.clean n h = Some (n', h') →
  h' ⊆ h ∧
  ∀ q, q ≠ Node.names (AstNode.node n) →
       q ≠ FunType.param_types (Node.fun_type (AstNode.node n)) →
       q ≠ Scope.dict (Node.scope (AstNode.node n)) →
       q ≠ BlockStmt.stmts (Node.block_stmt (AstNode.node n)) →
       h' !! q = h !! q.
Proof.
  assert (Hv : ∀ p h h', delete_vector p h = Some h' →
                 h' ⊆ h ∧ ∀ q, q ≠ p → h' !! q = h !! q).
  { intros p h0 h1 [[_ ->]|(_ & _ & ->)]%AstFacts.delete_vector_cases; [done|].
    split; [apply delete_subseteq|]. intros q Hq. by apply lookup_delete_ne. }
  assert (Hd : ∀ p h h', delete_dict p h = Some h' →
                 h' ⊆ h ∧ ∀ q, q ≠ p → h' !! q = h !! q).
  { intros p h0 h1 [[_ ->]|(_ & _ & ->)]%AstFacts.delete_dict_cases; [done|].
    split; [apply delete_subseteq|]. intros q Hq. by apply lookup_delete_ne. }
  unfold AstNode.clean. intros H.
  apply bind_Some in H as (h1 & H & [= _ <-]).
  destruct (AstNode.kind n); try (injection H as <-; done);
    try (destruct (Hv _ _ _ H) as [Hsub Hq]; split; [done|]; intros; by apply Hq);
    try (destruct (Hd _ _ _ H) as [Hsub Hq]; split; [done|]; intros; by apply Hq).
  apply bind_Some in H as (h0 & H0 & H1).
  destruct (Hv _ _ _ H0) as [Hsub0 Hq0]. destruct (Hv _ _ _ H1) as [Hsub1 Hq1].
  split; [by etrans|]. intros q ? ? ? ?. rewrite Hq1, Hq0; done.
Qed.

Lemma clean_frame_witness :
  let n := AstNode.mk Kind.FunType
             (Node.set_fun_type (FunType.mk 0 5 0) Node.zero) in
  let h : Heap := <[6 := Vector [9]]> {[5 := Vector [1; 2]]} in
  ∃ h', AstNode.clean n h = Some (AstNode.ctor Kind.None, h') ∧
        h' !! 6 = Some (Vector [9]) ∧ h' !! 5 = None.
Proof.
  intros n h.
  eassert (Hc : AstNode.clean n h = Some (AstNode.ctor Kind.None, _))
    by (vm_compute; reflexivity).
  eexists. split; [exact Hc|]. split.
  - etrans; [apply (proj2 (clean_frame _ _ _ _ Hc) 6); discriminate|].
    vm_compute. reflexivity.
  - vm_compute. reflexivity.
Defined.

(** One named parameter added when both lists are allocated. *)
Lemma add_named_param_alloc t id nd h ts ids :
  let a := FunType.param_types (Node.fun_type nd) in
  let b := Node.names nd in
  a ≠ nullptr → b ≠ nullptr → a ≠ b →
  h !! a = Some (Vector ts) → h !! b = Some (Vector ids) →
  add_named_param (t, id) nd h =
    Some (nd, <[b := Vector (ids ++ [id])]> (<[a := Vector (ts ++ [t])]> h)).
Proof.
  intros a b Ha Hb Hab Hta Hib. unfold add_named_param. simpl.
  rewrite add_param_type_update.
  rewrite (update_owned_alloc _ _ a _ (Vector ts) (Vector (ts ++ [t]))) by done.
  simpl.
  assert (E1 : Node.set_fun_type
                 (FunType.mk (FunType.return_type (Node.fun_type nd)) a
                    (FunType.name (Node.fun_type nd))) nd = nd).
  { subst a. destruct nd as [? ? ? ? ? ? [] ? ? ? ? ? ? ? ? ?]. done. }
  rewrite E1, add_name_update.
  rewrite (update_owned_alloc _ _ b _ (Vector ids) (Vector (ids ++ [id]))); [|done| |done].
  2:{ by rewrite lookup_insert_ne. }
  simpl. assert (E2 : Node.set_names b nd = nd) by (subst b; by destruct nd).
  by rewrite E2.
Qed.

(** A function type with named parameters built by [add_named_param]:
    the state once both lists are allocated. *)
Lemma fold_named_params_alloc params nd h0 ts ids :
  let a := FunType.param_types (Node.fun_type nd) in
  let b := Node.names nd in
  a ≠ nullptr → b ≠ nullptr → a ≠ b →
  fold_add add_named_param params nd
    (<[b := Vector ids]> (<[a := Vector ts]> h0)) =
  Some (nd, <[b := Vector (ids ++ params.*2)]> (<[a := Vector (ts ++ params.*1)]> h0)).
Proof.
  intros a b Ha Hb Hab. revert ts ids.
  induction params as [|[t id] params IH]; intros ts ids.
  { simpl. by rewrite !app_nil_r. }
  cbn [fold_add].
  rewrite (add_named_param_alloc t id nd _ ts ids); [|done..| |].
  2:{ rewrite lookup_insert_ne by done. apply lookup_insert_eq. }
  2:{ apply lookup_insert_eq. }
  cbn [mbind option_bind].
  rewrite (insert_insert_ne _ a b) by done.
  rewrite !insert_insert_eq.
  rewrite IH. simpl. by rewrite <- !app_assoc.
Qed.

Lemma delete_vector_alloc p h v :
  p ≠ nullptr → h !! p = Some (Vector v) → delete_vector p h = Some (delete p h).
Proof. intros Hp Hv. unfold delete_vector. by rewrite decide_False, Hv. Qed.

Lemma delete_dict_alloc p h d :
  p ≠ nullptr → h !! p = Some (Dict d) → delete_dict p h = Some (delete p h).
Proof. intros Hp Hd. unfold delete_dict. by rewrite decide_False, Hd. Qed.

(** X12. What the [add_*] helpers allocate for a node, [clean] gives back:
    for a [FunType] node whose parameter types were added by
    [add_param_type], for a [Function], [Struct] or [Union] node whose
    members were added by [add_node], and for a [BlockStmt] node whose
    statements were added by [add_stmt], [clean] is defined and the heap is
    again what it was before the first addition. *)
Theorem build_then_clean_restores_heap (h : Heap) :
  (∀ types ft, FunType.param_types ft = nullptr →
     ∃ ft' h', fold_add FunType.add_param_type types ft h = Some (ft', h') ∧
       ∀ n, AstNode.kind n = Kind.FunType → Node.fun_type (AstNode.node n) = ft' →
            AstNode.clean n h' = Some (AstNode.ctor Kind.None, h)) ∧
  (∀ UndefinedIdIndex members sc, Scope.dict sc = nullptr →
     ∃ sc' h', fold_add (add_member UndefinedIdIndex) members sc h = Some (sc', h') ∧
       ∀ n, is_scope (AstNode.kind n) = true → Node.scope (AstNode.node n) = sc' →
            AstNode.clean n h' = Some (AstNode.ctor Kind.None, h)) ∧
  (∀ stmts b, BlockStmt.stmts b = nullptr →
     ∃ b' h', fold_add BlockStmt.add_stmt stmts b h = Some (b', h') ∧
       ∀ n, AstNode.kind n = Kind.BlockStmt → Node.block_stmt (AstNode.node n) = b' →
            AstNode.clean n h' = Some (AstNode.ctor Kind.None, h)).
Proof.
  split_and!.
  - intros types ft Hp. destruct types as [|type types].
    + exists ft, h. split; [done|]. intros n Hk Hn.
      unfold AstNode.clean. rewrite Hk, Hn, Hp. done.
    + destruct (new_addr_fresh h) as [Hnn Hf].
      rewrite (add_param_types_null _ _ _ _ Hp).
      eexists _, _. split; [done|]. intros n Hk Hn.
      unfold AstNode.clean. rewrite Hk, Hn. simpl.
      rewrite (delete_vector_alloc _ _ (type :: types)) by (done || apply lookup_insert_eq).
      simpl. by rewrite delete_insert_id.
  - intros U members sc Hp. destruct members as [|m members].
    + exists sc, h. split; [done|]. intros n Hk Hn.
      unfold AstNode.clean.
      destruct (AstNode.kind n); try done; simpl; by rewrite Hn, Hp.
    + destruct (new_addr_fresh h) as [Hnn Hf].
      rewrite (add_members_null _ _ _ _ _ Hp).
      eexists _, _. split; [done|]. intros n Hk Hn.
      unfold AstNode.clean.
      destruct (AstNode.kind n); try done; simpl; rewrite Hn; simpl;
        (erewrite delete_dict_alloc by (done || apply lookup_insert_eq));
        simpl; by rewrite delete_insert_id.
  - intros stmts b Hp. destruct stmts as [|stmt stmts].
    + exists b, h. split; [done|]. intros n Hk Hn.
      unfold AstNode.clean. rewrite Hk, Hn, Hp. done.
    + destruct (new_addr_fresh h) as [Hnn Hf].
      rewrite (add_stmts_null _ _ _ _ Hp).
      eexists _, _. split; [done|]. intros n Hk Hn.
      unfold AstNode.clean. rewrite Hk, Hn. simpl.
      rewrite (delete_vector_alloc _ _ (stmt :: stmts)) by (done || apply lookup_insert_eq).
      simpl. by rewrite delete_insert_id.
Qed.

Lemma build_then_clean_restores_heap_witness :
  let h : Heap := {[7 := Vector [1]]} in
  (∃ ft' h', fold_add FunType.add_param_type [3; 4] FunType.zero h = Some (ft', h') ∧
     AstNode.clean (AstNode.mk Kind.FunType (Node.set_fun_type ft' Node.zero)) h'
       = Some (AstNode.ctor Kind.None, h)) ∧
  (∃ sc' h', fold_add (add_member 99) [(10, 3); (11, 99)] Scope.zero h = Some (sc', h') ∧
     AstNode.clean (AstNode.mk Kind.Struct (Node.set_scope sc' Node.zero)) h'
       = Some (AstNode.ctor Kind.None, h)) ∧
  (∃ b' h', fold_add BlockStmt.add_stmt [5] BlockStmt.zero h = Some (b', h') ∧
     AstNode.clean (AstNode.mk Kind.BlockStmt (Node.set_block_stmt b' Node.zero)) h'
       = Some (AstNode.ctor Kind.None, h)).
Proof.
  intros h. destruct (build_then_clean_restores_heap h) as (Hft & Hsc & Hb).
  split_and!.
  - destruct (Hft [3; 4] FunType.zero eq_refl) as (ft' & h' & Hfold & Hclean).
    exists ft', h'. split; [exact Hfold|]. by apply Hclean.
  - destruct (Hsc 99 [(10, 3); (11, 99)] Scope.zero eq_refl)
      as (sc' & h' & Hfold & Hclean).
    exists sc', h'. split; [exact Hfold|]. by apply Hclean.
  - destruct (Hb [5] BlockStmt.zero eq_refl) as (b' & h' & Hfold & Hclean).
    exists b', h'. split; [exact Hfold|]. by apply Hclean.
Defined.

(** X13. A function type with named parameters, built one parameter at a
    time by [add_param_type] and [add_name]: the two lists live at two
    different addresses and hold the types and the names in order, and
    [clean], which frees the names and falls through to the parameter
    types, is defined and gives back the heap from before the first
    parameter. *)
Theorem named_params_build_clean
    (params : list (AstNodeIndex * IdIndex)) (nd : Node.t) (h : Heap) :
  Node.names nd = nullptr →
  FunType.param_types (Node.fun_type nd) = nullptr →
  ∃ nd' h',
    fold_add add_named_param params nd h = Some (nd', h') ∧
    (params ≠ [] →
       FunType.param_types (Node.fun_type nd') ≠ Node.names nd' ∧
       h' !! FunType.param_types (Node.fun_type nd') = Some (Vector params.*1) ∧
       h' !! Node.names nd' = Some (Vector params.*2)) ∧
    AstNode.clean (AstNode.mk Kind.FunTypeWithNamedParams nd') h'
      = Some (AstNode.ctor Kind.None, h).
Proof.
  intros Hn Hp. destruct params as [|[t id] params].
  { exists nd, h. split_and!; [done..|].
    unfold AstNode.clean. simpl. by rewrite Hn, Hp. }
  destruct (new_addr_fresh h) as [Ha Hfa].
  set (a := new_addr h) in *. set (h1 := <[a := Vector [t]]> h).
  destruct (new_addr_fresh h1) as [Hb Hfb].
  set (b := new_addr h1) in *.
  assert (Hab : a ≠ b).
  { intros E. subst h1. rewrite <- E, lookup_insert_eq in Hfb. done. }
  assert (Hhb : h !! b = None).
  { subst h1. by rewrite lookup_insert_ne in Hfb. }
  set (nd2 := Node.set_names b
                (Node.set_fun_type
                   (FunType.mk (FunType.return_type (Node.fun_type nd)) a
                      (FunType.name (Node.fun_type nd))) nd)).
  assert (Hstep : add_named_param (t, id) nd h = Some (nd2, <[b := Vector [id]]> h1)).
  { unfold add_named_param. simpl.
    rewrite add_param_type_update, Hp.
    rewrite (update_owned_null _ _ _ (Vector [t])) by done. simpl.
    rewrite add_name_update. simpl. rewrite Hn.
    by rewrite (update_owned_null _ _ _ (Vector [id])). }
  pose proof (fold_named_params_alloc params nd2 h [t] [id]) as Hfold.
  simpl in Hfold. specialize (Hfold Ha Hb Hab).
  eexists nd2, _. split_and!.
  - cbn [fold_add]. rewrite Hstep. simpl. exact Hfold.
  - intros _. simpl. split_and!; [done| |].
    + rewrite lookup_insert_ne by done. apply lookup_insert_eq.
    + apply lookup_insert_eq.
  - unfold AstNode.clean. simpl.
    erewrite delete_vector_alloc by (done || apply lookup_insert_eq). simpl.
    rewrite delete_insert_id by (by rewrite lookup_insert_ne).
    erewrite delete_vector_alloc by (done || apply lookup_insert_eq). simpl.
    by rewrite delete_insert_id.
Qed.

Lemma named_params_build_clean_witness :
  ∃ nd' h',
    fold_add add_named_param [(1, 20); (1, 21); (2, 22)] Node.zero ∅ = Some (nd', h') ∧
    h' !! FunType.param_types (Node.fun_type nd') = Some (Vector [1; 1; 2]) ∧
    h' !! Node.names nd' = Some (Vector [20; 21; 22]) ∧
    AstNode.clean (AstNode.mk Kind.FunTypeWithNamedParams nd') h'
      = Some (AstNode.ctor Kind.None, ∅).
Proof.
  destruct (named_params_build_clean [(1, 20); (1, 21); (2, 22)] Node.zero ∅
              eq_refl eq_refl) as (nd' & h' & Hfold & Hlists & Hclean).
  destruct Hlists as (_ & Hts & Hids); [discriminate|].
  exists nd', h'. split_and!; [exact Hfold|exact Hts|exact Hids|exact Hclean].
Defined.

End Ownership.

(** ** More on the arena *)

Module AstMore.
Import AstFacts.

(** X14. [remove] followed by [create], in any state: the handle just
    removed comes back, its node has the kind asked for and an all-zero
    payload, the free list and the number of slots are what they were
    before the [remove], and no other slot has changed. *)
Theorem remove_then_create (s s1 : State) (h : AstNodeIndex) (kind : Kind.t) :
  remove h s = Some (tt, s1) →
  ∃ s2, create kind s1 = Some (h, s2) ∧
        get_node h s2 = Some (AstNode.ctor kind) ∧
        removed (ast s2) = removed (ast s) ∧
        length (nodes (ast s2)) = length (nodes (ast s)) ∧
        heap s2 = heap s1 ∧
        ∀ h', h' ≠ h → get_node h' s2 = get_node h' s.
Proof.
  intros (n & Hn & _ & Hnodes & Hrem)%remove_cases.
  pose proof (lookup_lt_Some _ _ _ Hn) as Hlt.
  assert (Hn1 : nodes (ast s1) !! N.to_nat h = Some (AstNode.ctor Kind.None)).
  { rewrite Hnodes. by apply list_lookup_insert_eq. }
  eexists. split; [by eapply create_reuse|]. unfold get_node. simpl.
  rewrite Hnodes, list_insert_insert_eq, length_insert. split_and!; try done.
  - by apply list_lookup_insert_eq.
  - intros h' Hne. apply list_lookup_insert_ne. by apply to_nat_inj_ne.
Qed.

Lemma remove_then_create_witness :
  let s := {| ast := {| nodes := [AstNode.ctor Kind.I32Type;
                                  AstNode.mk Kind.IfElseStmt
                                    (Node.set_names 4 Node.zero)];
                        removed := [] |};
              heap := ∅ |} in
  ∃ s1 s2, remove 1 s = Some (tt, s1) ∧
           create Kind.U8Type s1 = Some (1, s2) ∧
           get_node 1 s2 = Some (AstNode.ctor Kind.U8Type) ∧
           removed (ast s2) = [].
Proof.
  intros s.
  eassert (Hr : remove 1 s = Some (tt, _)) by (vm_compute; reflexivity).
  destruct (remove_then_create s _ 1 Kind.U8Type Hr) as (s2 & Hc & Hn & Hrem & _).
  eexists _, s2. split_and!; [exact Hr|exact Hc|exact Hn|exact Hrem].
Defined.

(** X15. [remove] does not check that the handle is live. A second
    [remove] of the same handle is defined, frees nothing more and puts
    the handle on the free list a second time; the next two [create]
    calls then both return that handle, and the second one re-tags the
    node the first one handed out. *)
Theorem double_remove_aliases (s s1 : State) (h : AstNodeIndex) :
  remove h s = Some (tt, s1) →
  ∃ s2, remove h s1 = Some (tt, s2) ∧
        heap s2 = heap s1 ∧
        removed (ast s2) = removed (ast s) ++ [h; h] ∧
        ∀ kind1 kind2, ∃ s3 s4,
          create kind1 s2 = Some (h, s3) ∧
          get_node h s3 = Some (AstNode.ctor kind1) ∧
          create kind2 s3 = Some (h, s4) ∧
          get_node h s4 = Some (AstNode.ctor kind2).
Proof.
  intros (n & Hn & _ & Hnodes & Hrem)%remove_cases.
  pose proof (lookup_lt_Some _ _ _ Hn) as Hlt.
  assert (Hn1 : nodes (ast s1) !! N.to_nat h = Some (AstNode.ctor Kind.None)).
  { rewrite Hnodes. by apply list_lookup_insert_eq. }
  eexists. split; [by apply (remove_defined h s1 _ (heap s1) Hn1)|].
  simpl. rewrite Hrem, <- app_assoc. split_and!; [done..|].
  intros kind1 kind2.
  assert (Hlt1 : (N.to_nat h < length (nodes (ast s1)))%nat)
    by (by rewrite Hnodes, length_insert).
  eexists _, _. split_and!.
  - eapply (create_reuse kind1 _ (removed (ast s) ++ [h]) h).
    + simpl. by rewrite <- app_assoc.
    + simpl. by apply list_lookup_insert_eq.
  - unfold get_node. simpl. rewrite list_insert_insert_eq.
    by apply list_lookup_insert_eq.
  - eapply (create_reuse kind2 _ (removed (ast s)) h).
    + done.
    + simpl. rewrite list_insert_insert_eq. by apply list_lookup_insert_eq.
  - unfold get_node. simpl. rewrite !list_insert_insert_eq.
    by apply list_lookup_insert_eq.
Qed.

Lemma double_remove_aliases_witness :
  let s := {| ast := {| nodes := [AstNode.ctor Kind.I32Type; AstNode.ctor Kind.Struct];
                        removed := [] |};
              heap := ∅ |} in
  ∃ s1 s2 s3 s4,
    remove 0 s = Some (tt, s1) ∧ remove 0 s1 = Some (tt, s2) ∧
    create Kind.WhileStmt s2 = Some (0, s3) ∧
    create Kind.Union s3 = Some (0, s4) ∧
    get_node 0 s4 = Some (AstNode.ctor Kind.Union).
Proof.
  intros s.
  eassert (Hr : remove 0 s = Some (tt, _)) by (vm_compute; reflexivity).
  destruct (double_remove_aliases s _ 0 Hr) as (s2 & Hr2 & _ & _ & Hcreate).
  destruct (Hcreate Kind.WhileStmt Kind.Union) as (s3 & s4 & Hc3 & _ & Hc4 & Hn4).
  eexists _, s2, s3, s4. split_and!; [exact Hr|exact Hr2|exact Hc3|exact Hc4|exact Hn4].
Defined.

Section Runs.

Variable UndefinedIdIndex : IdIndex.

Abbreviation exec := (exec UndefinedIdIndex).
Abbreviation run := (run UndefinedIdIndex).
Abbreviation disciplined := (disciplined UndefinedIdIndex).

Lemma exec_slots op s s1 :
  exec op s = Some s1 →
  (length (nodes (ast s)) ≤ length (nodes (ast s1)))%nat ∧
  (length (nodes (ast s1)) + length (removed (ast s)) + removes [op]
   = length (nodes (ast s)) + length (removed (ast s1)) + creates [op])%nat.
Proof.
  intros Hop. destruct (written op) as [index|] eqn:Hw.
  - destruct (exec_written _ _ _ _ _ Hw Hop) as (n & n' & h' & _ & -> & _).
    simpl. rewrite length_insert. by destruct op; simpl; try lia.
  - destruct op; try done.
    + apply exec_create in Hop as [h Hc].
      apply create_cases in Hc as [(E & _ & -> & -> & _)|(l & n & E & _ & -> & -> & _)];
        rewrite E, ?length_app, ?length_insert; simpl; lia.
    + apply exec_remove, remove_cases in Hop as (n & _ & _ & -> & ->).
      rewrite length_app, length_insert. simpl. lia.
Qed.

(** X16. The arena never gives a slot up: over any program the number of
    slots does not go down and a handle that addressed a slot still does.
    Slots minus free-list entries goes up by one with every [create] and
    down by one with every [remove], whatever else the program does. *)
Theorem run_slots (ops : list Op) (s s' : State) :
  run ops s = Some s' →
  (length (nodes (ast s)) ≤ length (nodes (ast s')))%nat ∧
  (∀ h, is_Some (get_node h s) → is_Some (get_node h s')) ∧
  (length (nodes (ast s')) + length (removed (ast s)) + removes ops
   = length (nodes (ast s)) + length (removed (ast s')) + creates ops)%nat.
Proof.
  intros Hrun.
  assert (H : (length (nodes (ast s)) ≤ length (nodes (ast s')))%nat ∧
    (length (nodes (ast s')) + length (removed (ast s)) + removes ops
     = length (nodes (ast s)) + length (removed (ast s')) + creates ops)%nat).
  { revert s Hrun. induction ops as [|op ops IH]; intros s Hrun; simpl in Hrun.
    { injection Hrun as <-. simpl. lia. }
    apply bind_Some in Hrun as (s1 & Hop & Hrun).
    destruct (exec_slots op s s1 Hop) as [Hle Heq].
    destruct (IH s1 Hrun) as [Hle' Heq'].
    split; [lia|]. destruct op; simpl in *; lia. }
  destruct H as [Hle Heq]. split_and!; [done| |done].
  intros h Hh. unfold get_node in *.
  apply lookup_lt_is_Some. apply lookup_lt_is_Some in Hh. lia.
Qed.

(** X17. The invariant of the free list under the caller's contract: in
    an arena used through live handles only, no handle is on the free
    list twice, and every handle on it addresses a slot of kind [None]
    with an all-zero payload. *)
Theorem free_list_invariant (ops : list Op) (s : State) :
  disciplined ops init = true →
  run ops init = Some s →
  NoDup (removed (ast s)) ∧
  ∀ h, h ∈ removed (ast s) →
       get_node h s = Some {| AstNode.kind := Kind.None; AstNode.node := Node.zero |}
       ∧ live h s = false.
Proof.
  intros Hd Hrun.
  destruct (run_free_slots_clean UndefinedIdIndex ops init s Hd Hrun
              init_free_slots_clean) as [Hnd Hcl].
  split; [done|]. intros h Hh. split; [by apply Hcl|].
  unfold live. rewrite (bool_decide_eq_false_2 (h ∉ _)); [apply andb_false_r|]. tauto.
Qed.

(** X18. Under the caller's contract, and below [2^32] slots, [create]
    never hands out a handle that is live: the handle it returns was not
    live before the call, is live after it, and the call changes the
    liveness of no other handle. *)
Theorem create_returns_unused_handle
    (ops : list Op) (s s' : State) (kind : Kind.t) (h : AstNodeIndex) :
  disciplined ops init = true →
  run ops init = Some s →
  N.of_nat (length (nodes (ast s))) < 2 ^ 32 →
  create kind s = Some (h, s') →
  live h s = false ∧ live h s' = true ∧ ∀ h', h' ≠ h → live h' s' = live h' s.
Proof.
  intros Hd Hrun Hlen Hc.
  destruct (run_free_slots_clean UndefinedIdIndex ops init s Hd Hrun
              init_free_slots_clean) as [Hnd Hcl].
  assert (Hlive : ∀ i st, live i st
            = bool_decide ((N.to_nat i < length (nodes (ast st)))%nat
                           ∧ i ∉ removed (ast st))).
  { intros i st. unfold live. apply eq_true_iff_eq.
    by rewrite andb_true_iff, !bool_decide_eq_true. }
  apply create_cases in Hc as [(E & -> & Hn & Hr & _)|(l & n & E & Hlk & Hn & Hr & _)].
  - rewrite (to_u32_small _ Hlen). rewrite !Hlive.
    split_and!.
    + apply bool_decide_eq_false_2. rewrite Nat2N.id. lia.
    + apply bool_decide_eq_true_2. rewrite Hn, Hr, length_app, Nat2N.id. simpl.
      split; [lia|apply not_elem_of_nil].
    + intros h' Hne. rewrite !Hlive. apply bool_decide_ext.
      rewrite Hn, Hr, E, length_app. simpl.
      assert (N.to_nat h' ≠ length (nodes (ast s))) by lia.
      split; (intros [? ?]; split; [lia|apply not_elem_of_nil]).
  - rewrite E in Hnd. apply NoDup_app in Hnd as (_ & Hdisj & _).
    rewrite !Hlive. split_and!.
    + apply bool_decide_eq_false_2. rewrite E. intros [_ Hnot].
      apply Hnot, elem_of_app. right. by left.
    + apply bool_decide_eq_true_2. rewrite Hn, Hr, length_insert.
      split; [by eapply lookup_lt_Some|].
      intros Hin. apply (Hdisj h Hin). by left.
    + intros h' Hne. rewrite !Hlive. apply bool_decide_ext.
      rewrite Hn, Hr, E, length_insert, not_elem_of_app, not_elem_of_cons.
      split; [intros [? ?]|intros [? [? _]]]; split_and!; try done.
      apply not_elem_of_nil.
Qed.

End Runs.

Lemma run_slots_witness :
  ∃ s', run 99 build_and_remove init = Some s' ∧
        (length (nodes (ast s')) + 0 + 1 = 0 + length (removed (ast s')) + 2)%nat.
Proof.
  eassert (Hrun : run 99 build_and_remove init = Some _) by (vm_compute; reflexivity).
  eexists. split; [exact Hrun|].
  exact (proj2 (proj2 (run_slots 99 build_and_remove init _ Hrun))).
Defined.

Lemma free_list_invariant_witness :
  ∃ s, disciplined 99 build_and_remove init = true ∧
       run 99 build_and_remove init = Some s ∧
       NoDup (removed (ast s)) ∧
       get_node 1 s = Some (AstNode.ctor Kind.None).
Proof.
  eassert (Hrun : run 99 build_and_remove init = Some _) by (vm_compute; reflexivity).
  assert (Hd : disciplined 99 build_and_remove init = true) by (vm_compute; reflexivity).
  destruct (free_list_invariant 99 build_and_remove _ Hd Hrun) as [Hnd Hcl].
  eexists. split_and!; [exact Hd|exact Hrun|exact Hnd|].
  apply (Hcl 1). by left.
Defined.

Lemma create_returns_unused_handle_witness :
  ∃ s s', disciplined 99 build_and_remove init = true ∧
          run 99 build_and_remove init = Some s ∧
          N.of_nat (length (nodes (ast s))) < 2 ^ 32 ∧
          create Kind.Struct s = Some (1, s') ∧
          live 1 s = false ∧ live 1 s' = true ∧ live 0 s' = live 0 s.
Proof.
  eassert (Hrun : run 99 build_and_remove init = Some _) by (vm_compute; reflexivity).
  assert (Hd : disciplined 99 build_and_remove init = true) by (vm_compute; reflexivity).
  match type of Hrun with
  | _ = Some ?st =>
      eassert (Hc : create Kind.Struct st = Some (1, _)) by (vm_compute; reflexivity)
  end.
  destruct (create_returns_unused_handle 99 build_and_remove _ _ Kind.Struct 1
              Hd Hrun eq_refl Hc) as (H1 & H2 & H3).
  eexists _, _.
  split_and!; [exact Hd|exact Hrun|reflexivity|exact Hc|exact H1|exact H2|].
  apply H3. discriminate.
Defined.

End AstMore.
